(** * deepmusic/model.py: the sequence model's graph construction and [step]

    A shallow embedding of [deepmusic.model.Model].  The class builds a
    TensorFlow graph once ([__init__] / [_build_network]) and later hands the
    caller the operators to run together with a feed dictionary ([step]).
    Nothing numeric is executed by the class itself, so the embedding keeps the
    graph symbolic: a tensor is the expression that produces it, placeholders
    and variables carry the identity TensorFlow gives them, and the ambient
    default graph and the object [self] are threaded explicitly.

    Conventions.
    - Python integers are [Z]; [range] and list indexing are written out,
      with the exceptions Python raises.
    - Python float literals are kept as the rationals their decimal text
      denotes ([0.9] is [9/10]); the configured learning rate is a [Q].
    - TensorFlow primitives the class only calls (the LSTM cell, the sequence
      loss, the optimizer) are uninterpreted graph nodes that record their
      operands; the weights inside an LSTM cell belong to its nodes.
      [rnn_decoder], [MultiRNNCell] and [sequence_loss] follow the control
      flow of TensorFlow's own Python definitions.
    - [music.NB_NOTES] comes from [deepmusic.songstruct], which is not part of
      the modelled file; it is a section variable.
    - The message [__init__] prints is left out. *)

From Stdlib Require Import ZArith QArith Qreals Reals Lra.
From stdpp Require Import base option list strings gmap fin_maps.

Local Open Scope string_scope.
Local Open Scope list_scope.
Local Open Scope Z_scope.

(** ** Python exceptions and computations *)

Inductive exn :=
| IndexError
| TypeError
| AttributeError
| ValueError.

Inductive outcome (A : Type) :=
| Ok (a : A)
| Raise (e : exn).
Arguments Ok {A} a.
Arguments Raise {A} e.

(** A computation over a mutable state [St]: the state reached so far is kept
    when an exception propagates, as in Python. *)
Definition Comp (St A : Type) : Type := St -> outcome A * St.

Definition ret {St A} (a : A) : Comp St A := fun s => (Ok a, s).

Definition raise {St A} (e : exn) : Comp St A := fun s => (Raise e, s).

Definition bind {St A B} (c : Comp St A) (k : A -> Comp St B) : Comp St B :=
  fun s =>
    match c s with
    | (Ok a, s') => k a s'
    | (Raise e, s') => (Raise e, s')
    end.

Definition modify {St} (f : St -> St) : Comp St unit := fun s => (Ok tt, f s).

Definition lift {St A} (o : outcome A) : Comp St A := fun s => (o, s).

Declare Scope comp_scope.
Delimit Scope comp_scope with comp.
Notation "'do' x <- c ; k" := (bind c (fun x => k))
  (at level 10, x name, c at level 100, k at level 200) : comp_scope.
Notation "'do' ' p <- c ; k" := (bind c (fun x => match x with p => k end))
  (at level 10, p pattern, c at level 100, k at level 200) : comp_scope.
Notation "'exec' c ; k" := (bind c (fun _ => k))
  (at level 10, c at level 100, k at level 200) : comp_scope.
Local Open Scope comp_scope.

(** [for x in xs: body], where the body updates a local [acc]. *)
Fixpoint for_ {St A B} (xs : list A) (acc : B) (body : A -> B -> Comp St B)
    : Comp St B :=
  match xs with
  | [] => ret acc
  | x :: xs' =>
      do acc' <- body x acc;
      for_ xs' acc' body
  end.

(** [range(n)]: empty when [n <= 0]. *)
Definition py_range (n : Z) : list Z :=
  Z.of_nat <$> seq 0 (Z.to_nat n).

(** [l[i]] on a Python list: negative indices count from the end. *)
Definition py_index {A} (l : list A) (i : Z) : outcome A :=
  let n := Z.of_nat (length l) in
  let j := if i <? 0 then i + n else i in
  if (0 <=? j) && (j <? n) then
    match l !! Z.to_nat j with
    | Some a => Ok a
    | None => Raise IndexError
    end
  else Raise IndexError.

(** [obj[i]] where [obj] may be [None]. *)
Definition py_subscript {A} (obj : option (list A)) (i : Z) : outcome A :=
  match obj with
  | None => Raise TypeError
  | Some l => py_index l i
  end.

(** [len(obj)] where [obj] may be [None]. *)
Definition py_len {A} (obj : option (list A)) : outcome Z :=
  match obj with
  | None => Raise TypeError
  | Some l => Ok (Z.of_nat (length l))
  end.

(** [\[f(x) for x in xs\]] *)
Fixpoint list_comp {St A B} (f : A -> Comp St B) (xs : list A)
    : Comp St (list B) :=
  match xs with
  | [] => ret []
  | x :: xs' =>
      do y <- f x;
      do ys <- list_comp f xs';
      ret (y :: ys)
  end.

(** ** The symbolic graph *)

Inductive dtype := float32.

Inductive initializer := truncated_normal_initializer.

(** A [tf.placeholder]: [ph_uid] is the identity of the created tensor
    object; feed dictionaries hash their keys by it.  [ph_requested_name]
    is the [name] argument of the call under its name scope, not the name
    of the operation in the graph: TensorFlow makes that one unique by a
    suffix ([input], [input_1], ...), which is not modelled. *)
Record placeholder := {
  ph_uid : nat;
  ph_requested_name : string;
  ph_dtype : dtype;
  ph_shape : list Z
}.

(** A variable made by [tf.get_variable]; [var_name] is the scoped name. *)
Record variable := {
  var_uid : nat;
  var_name : string;
  var_shape : list Z;
  var_init : initializer
}.

Inductive tensor :=
| Placeholder (p : placeholder)
| Var (v : variable)                  (* a variable used as an operand *)
| Constant (q : Q)                    (* a Python float used as an operand *)
| Zeros (shape : list Z)              (* tf.zeros, from [zero_state] *)
| Ones (shape : list Z)               (* tf.ones *)
| MatMul (a b : tensor)               (* tf.matmul *)
| Add (a b : tensor)                  (* a + b *)
| Sub (a b : tensor)                  (* tf.sub *)
| Mul (a b : tensor)                  (* tf.mul *)
| Sigmoid (a : tensor)                (* tf.nn.sigmoid *)
| LSTMCellC (layer : nat) (num_units : Z) (inp c h : tensor)
| LSTMCellH (layer : nat) (num_units : Z) (inp c h : tensor).

(** [LSTMCellC] and [LSTMCellH] are the new cell state and the new hidden
    state of one [BasicLSTMCell] application inside layer [layer] of the
    stack (scope [Cell<layer>]), on input [inp] and previous state [(c, h)]. *)

#[global] Instance dtype_eq_dec : EqDecision dtype.
Proof. solve_decision. Defined.

#[global] Instance placeholder_eq_dec : EqDecision placeholder.
Proof. solve_decision. Defined.

#[global] Instance placeholder_countable : Countable placeholder.
Proof.
  refine (inj_countable'
    (fun p => (ph_uid p, ph_requested_name p, ph_shape p))
    (fun t => {| ph_uid := t.1.1; ph_requested_name := t.1.2;
                 ph_dtype := float32; ph_shape := t.2 |}) _).
  intros [u n [] s]. reflexivity.
Defined.

#[global] Instance initializer_eq_dec : EqDecision initializer.
Proof. solve_decision. Defined.

#[global] Instance variable_eq_dec : EqDecision variable.
Proof. solve_decision. Defined.

#[global] Instance variable_countable : Countable variable.
Proof.
  refine (inj_countable'
    (fun v => (var_uid v, var_name v, var_shape v))
    (fun t => {| var_uid := t.1.1; var_name := t.1.2; var_shape := t.2;
                 var_init := truncated_normal_initializer |}) _).
  intros [u n s []]. reflexivity.
Defined.

(** [LSTMStateTuple(c, h)] *)
Record LSTMStateTuple := {
  st_c : tensor;
  st_h : tensor
}.

(** The state of a [MultiRNNCell] with [state_is_tuple=True]: one tuple per
    layer. *)
Definition rnn_state := list LSTMStateTuple.

Inductive loss_function := sigmoid_cross_entropy_with_logits.

(** The scalar tensor that [tf.nn.seq2seq.sequence_loss] returns, as the call
    that made it. *)
Record loss_tensor := {
  loss_logits : list tensor;
  loss_targets : list tensor;
  loss_weights : list tensor;
  softmax_loss_function : loss_function
}.

Record AdamOptimizer := {
  learning_rate : Q;
  beta1 : Q;
  beta2 : Q;
  epsilon : Q
}.

(** A graph operation that is not a tensor: [opt.minimize(loss)]. *)
Inductive operation :=
| Minimize (opt : AdamOptimizer) (loss : loss_tensor).

(** The default graph, as far as the class touches it: the counter that
    gives new placeholders and variables their identity, the variables the
    class asks [tf.get_variable] for, by scoped name, and the summaries
    collection. *)
Record graph := {
  next_uid : nat;
  variables : gmap string variable;
  summaries : list (string * loss_tensor)
}.

Definition empty_graph : graph :=
  {| next_uid := 0%nat; variables := ∅; summaries := [] |}.

(** ** Configuration, batches and the model object *)

(** [args]: the parsed parameters the model reads. *)
Record Args := {
  batch_size : Z;
  sample_length : Z;
  hidden_size : Z;
  num_layers : Z;
  args_learning_rate : Q;
  test : bool
}.

(** A batch array: rows of floats. *)
Definition ndarray := list (list Q).

(** Modelled from the spec: [deepmusic.musicdata.Batch] is missing from the
    sources; the spec describes a batch record exposing an ordered
    sequence of per-step input arrays and an ordered sequence of per-step
    target arrays.  [None] stands for an attribute the record lacks. *)
Record Batch := {
  batch_inputs : option (list ndarray);
  batch_targets : option (list ndarray)
}.

(** The fields [__init__] declares; [None] is Python's [None]. *)
Record Model := {
  args : Args;
  inputs : option (list placeholder);
  targets : option (list placeholder);
  opt_op : option operation;
  outputs : option (list tensor);
  final_state : option rnn_state
}.

(** What a running constructor or method sees: the object and the ambient
    default graph. *)
Record world := {
  self : Model;
  default_graph : graph
}.

Definition set_inputs (v : option (list placeholder)) (w : world) : world :=
  let m := self w in
  {| self := {| args := args m; inputs := v; targets := targets m;
                opt_op := opt_op m; outputs := outputs m;
                final_state := final_state m |};
     default_graph := default_graph w |}.

Definition set_targets (v : option (list placeholder)) (w : world) : world :=
  let m := self w in
  {| self := {| args := args m; inputs := inputs m; targets := v;
                opt_op := opt_op m; outputs := outputs m;
                final_state := final_state m |};
     default_graph := default_graph w |}.

Definition set_opt_op (v : option operation) (w : world) : world :=
  let m := self w in
  {| self := {| args := args m; inputs := inputs m; targets := targets m;
                opt_op := v; outputs := outputs m;
                final_state := final_state m |};
     default_graph := default_graph w |}.

Definition set_outputs (v : option (list tensor)) (w : world) : world :=
  let m := self w in
  {| self := {| args := args m; inputs := inputs m; targets := targets m;
                opt_op := opt_op m; outputs := v;
                final_state := final_state m |};
     default_graph := default_graph w |}.

Definition set_final_state (v : option rnn_state) (w : world) : world :=
  let m := self w in
  {| self := {| args := args m; inputs := inputs m; targets := targets m;
                opt_op := opt_op m; outputs := outputs m;
                final_state := v |};
     default_graph := default_graph w |}.

Definition set_graph (g : graph) (w : world) : world :=
  {| self := self w; default_graph := g |}.

(** Reading a field of [self]. *)
Definition self_ {A} (field : Model -> A) : Comp world A :=
  fun w => (Ok (field (self w)), w).

(** ** TensorFlow calls that touch the default graph *)

(** [tf.placeholder(dtype, shape, name=...)] inside [tf.name_scope(scope)]:
    a new tensor object on every call, which records the name asked for
    (see [placeholder]).  The dimensions are taken as given: TensorFlow
    refuses a negative one with [ValueError], which is not modelled, and
    the results on construction are stated for positive sizes. *)
Definition tf_placeholder (scope : string) (dt : dtype) (shape : list Z)
    (name : string) : Comp world placeholder :=
  fun w =>
    let g := default_graph w in
    let p := {| ph_uid := next_uid g;
                ph_requested_name := scope +:+ "/" +:+ name;
                ph_dtype := dt; ph_shape := shape |} in
    (Ok p, set_graph {| next_uid := S (next_uid g);
                        variables := variables g;
                        summaries := summaries g |} w).

(** [tf.get_variable(name, shape, initializer=...)] inside
    [tf.variable_scope(scope)] without reuse: creates the variable, and
    raises [ValueError] when the scoped name is taken. *)
Definition tf_get_variable (scope name : string) (shape : list Z)
    (init : initializer) : Comp world variable :=
  fun w =>
    let g := default_graph w in
    let full := scope +:+ "/" +:+ name in
    match variables g !! full with
    | Some _ => (Raise ValueError, w)
    | None =>
        let v := {| var_uid := next_uid g; var_name := full;
                    var_shape := shape; var_init := init |} in
        (Ok v, set_graph {| next_uid := S (next_uid g);
                            variables := <[full := v]> (variables g);
                            summaries := summaries g |} w)
    end.

(** [tf.scalar_summary(tag, value)] *)
Definition tf_scalar_summary (tag : string) (value : loss_tensor)
    : Comp world unit :=
  fun w =>
    let g := default_graph w in
    (Ok tt, set_graph {| next_uid := next_uid g;
                         variables := variables g;
                         summaries := summaries g ++ [(tag, value)] |} w).

(** ** TensorFlow's recurrent cells, decoder and sequence loss *)

(** [tf.nn.rnn_cell.BasicLSTMCell(num_units, state_is_tuple=True)] *)
Record BasicLSTMCell := {
  num_units : Z
}.

(** [cell(inputs, state)] for a basic LSTM cell in scope [Cell<layer>]:
    returns [(new_h, LSTMStateTuple(new_c, new_h))]. *)
Definition BasicLSTMCell_call (layer : nat) (cell : BasicLSTMCell)
    (inp : tensor) (state : LSTMStateTuple)
    : tensor * LSTMStateTuple :=
  let new_c := LSTMCellC layer (num_units cell) inp (st_c state) (st_h state) in
  let new_h := LSTMCellH layer (num_units cell) inp (st_c state) (st_h state) in
  (new_h, {| st_c := new_c; st_h := new_h |}).

(** [tf.nn.rnn_cell.MultiRNNCell(cells, state_is_tuple=True)] *)
Record MultiRNNCell := {
  cells : list BasicLSTMCell
}.

(** The constructor refuses an empty list of cells. *)
Definition MultiRNNCell_new {St} (cs : list BasicLSTMCell)
    : Comp St MultiRNNCell :=
  match cs with
  | [] => raise ValueError
  | _ => ret {| cells := cs |}
  end.

(** [rnn_cell.zero_state(batch_size, dtype=tf.float32)] *)
Definition zero_state (cell : MultiRNNCell) (batch : Z) : rnn_state :=
  (fun c => {| st_c := Zeros [batch; num_units c];
               st_h := Zeros [batch; num_units c] |}) <$> cells cell.

(** [MultiRNNCell.__call__]: layer [i] runs on the output of layer [i-1] and
    on [state[i]]. *)
Fixpoint MultiRNNCell_layers {St} (i : nat) (cs : list BasicLSTMCell)
    (cur_inp : tensor) (state : rnn_state)
    : Comp St (tensor * rnn_state) :=
  match cs with
  | [] => ret (cur_inp, [])
  | cell :: rest =>
      do cur_state <- lift (py_index state (Z.of_nat i));
      let '(cur_inp', new_state) :=
        BasicLSTMCell_call i cell cur_inp cur_state in
      do '(out, new_states) <- MultiRNNCell_layers (S i) rest cur_inp' state;
      ret (out, new_state :: new_states)
  end.

Definition MultiRNNCell_call {St} (cell : MultiRNNCell) (inp : tensor)
    (state : rnn_state) : Comp St (tensor * rnn_state) :=
  MultiRNNCell_layers 0 (cells cell) inp state.

(** [tf.nn.seq2seq.rnn_decoder(decoder_inputs, initial_state, cell,
    loop_function)].  TensorFlow's loop, from position [i] on:

      for i, inp in enumerate(decoder_inputs):
        if loop_function is not None and prev is not None:
          inp = loop_function(prev, i)
        output, state = cell(inp, state)
        outputs.append(output)
        if loop_function is not None:
          prev = output

    [prev] starts as [None]; the function returns [(outputs, state)]. *)
Fixpoint rnn_decoder_from {St} (i : Z) (decoder_inputs : list tensor)
    (state : rnn_state) (cell : MultiRNNCell)
    (loop_function : option (tensor -> Z -> Comp St tensor))
    (prev : option tensor) : Comp St (list tensor * rnn_state) :=
  match decoder_inputs with
  | [] => ret ([], state)
  | inp :: rest =>
      do inp' <- match loop_function, prev with
                 | Some f, Some p => f p i
                 | _, _ => ret inp
                 end;
      do '(output, state') <- MultiRNNCell_call cell inp' state;
      let prev' := match loop_function with
                   | Some _ => Some output
                   | None => prev
                   end in
      do '(outs, final) <-
        rnn_decoder_from (i + 1) rest state' cell loop_function prev';
      ret (output :: outs, final)
  end.

Definition rnn_decoder {St} (decoder_inputs : option (list tensor))
    (initial_state : rnn_state) (cell : MultiRNNCell)
    (loop_function : option (tensor -> Z -> Comp St tensor))
    : Comp St (list tensor * rnn_state) :=
  match decoder_inputs with
  | None => raise TypeError
  | Some inps =>
      rnn_decoder_from 0 inps initial_state cell loop_function None
  end.

(** [tf.nn.seq2seq.sequence_loss(logits, targets, weights,
    softmax_loss_function=f)]: the three lists must have one length, and the
    per-step losses are summed with [add_n], which refuses an empty list. *)
Definition sequence_loss {St} (logits targets : option (list tensor))
    (weights : list tensor) (f : loss_function) : Comp St loss_tensor :=
  match logits, targets with
  | Some logits, Some targets =>
      if bool_decide (length targets = length logits
                      ∧ length weights = length logits
                      ∧ length logits ≠ 0%nat)
      then ret {| loss_logits := logits; loss_targets := targets;
                  loss_weights := weights; softmax_loss_function := f |}
      else raise ValueError
  | _, _ => raise TypeError
  end.

(** [tensor.get_shape()]: the static shape. *)
Fixpoint get_shape (t : tensor) : list Z :=
  match t with
  | Placeholder p => ph_shape p
  | Var v => var_shape v
  | Constant _ => []
  | Zeros s | Ones s => s
  | MatMul a b =>
      match get_shape a, get_shape b with
      | [n; _], [_; m] => [n; m]
      | _, _ => []
      end
  | Add a b | Sub a b | Mul a b =>
      match get_shape a with
      | [] => get_shape b
      | s => s
      end
  | Sigmoid a => get_shape a
  | LSTMCellC _ n inp _ _ | LSTMCellH _ n inp _ _ =>
      match get_shape inp with
      | batch :: _ => [batch; n]
      | [] => []
      end
  end.

(** ** The class [Model] *)

(** What [step] hands back in its one-element tuple: [self.opt_op] or
    [self.outputs], either of which is [None] until the graph is built. *)
Inductive handle :=
| HNone
| HOperation (op : operation)
| HTensors (ts : list tensor).

Definition handle_of_op (o : option operation) : handle :=
  match o with
  | None => HNone
  | Some op => HOperation op
  end.

Definition handle_of_tensors (o : option (list tensor)) : handle :=
  match o with
  | None => HNone
  | Some ts => HTensors ts
  end.

(** [x = 2*sigmoid(y) - 1], as the graph nodes [loop_rnn] makes. *)
Definition scaled_sigmoid (out : tensor) : tensor :=
  Sub (Mul (Constant 2) (Sigmoid out)) (Constant 1).

(** [self.outputs.append(proj)] *)
Definition outputs_append (proj : tensor) : Comp world unit :=
  do outs <- self_ outputs;
  match outs with
  | None => raise AttributeError
  | Some l => modify (set_outputs (Some (l ++ [proj])))
  end.

(** [batch.inputs] and [batch.targets] *)
Definition getattr {St A} (field : option A) : Comp St A :=
  match field with
  | None => raise AttributeError
  | Some v => ret v
  end.

Section Model.

(** [music.NB_NOTES] *)
Variable NB_NOTES : Z.

(** The closure [project_note] over the variables [W] and [b]. *)
Definition project_note (W b : variable) (X : tensor) : tensor :=
  Add (MatMul X (Var W)) (Var b).

(** The closure [loop_rnn] over [self] and [project_note]. *)
Definition loop_rnn (W b : variable) (prev : tensor) (i : Z)
    : Comp world tensor :=
  do t <- self_ (fun m => test (args m));
  if t then
    let out := project_note W b prev in
    let out := scaled_sigmoid out in
    ret out
  else
    do ins <- self_ inputs;
    do p <- lift (py_subscript ins i);
    ret (Placeholder p).

(** The loop of the final projection. *)
Fixpoint final_output (W b : variable) (outs : list tensor)
    : Comp world unit :=
  match outs with
  | [] => ret tt
  | output :: rest =>
      let proj := project_note W b output in
      exec outputs_append proj;
      final_output W b rest
  end.

Definition _build_network : Comp world unit :=
  (* Placeholders *)
  do n <- self_ (fun m => sample_length (args m));
  do ins <- list_comp
    (fun _ =>
       do bs <- self_ (fun m => batch_size (args m));
       tf_placeholder "placeholder_inputs" float32 [bs; NB_NOTES] "input")
    (py_range n);
  exec modify (set_inputs (Some ins));
  do n <- self_ (fun m => sample_length (args m));
  do tgs <- list_comp
    (fun _ =>
       do bs <- self_ (fun m => batch_size (args m));
       tf_placeholder "placeholder_targets" float32 [bs; NB_NOTES] "target")
    (py_range n);
  exec modify (set_targets (Some tgs));
  (* Projection *)
  do hs <- self_ (fun m => hidden_size (args m));
  do W <- tf_get_variable "note_projection" "weights" [hs; NB_NOTES]
            truncated_normal_initializer;
  do b <- tf_get_variable "note_projection" "bias" [NB_NOTES]
            truncated_normal_initializer;
  (* RNN network *)
  do hs <- self_ (fun m => hidden_size (args m));
  let rnn_cell := {| num_units := hs |} in
  do nl <- self_ (fun m => num_layers (args m));
  do rnn_cell <- MultiRNNCell_new (replicate (Z.to_nat nl) rnn_cell);
  do bs <- self_ (fun m => batch_size (args m));
  let initial_state := zero_state rnn_cell bs in
  do ins <- self_ inputs;
  do '(outs, final) <-
    rnn_decoder (map Placeholder <$> ins) initial_state rnn_cell
      (Some (loop_rnn W b));
  exec modify (set_final_state (Some final));
  (* Final projection *)
  exec modify (set_outputs (Some []));
  exec final_output W b outs;
  (* For training only *)
  do t <- self_ (fun m => test (args m));
  if negb t then
    do logits <- self_ outputs;
    do tgs <- self_ targets;
    do len <- self_ (fun m => py_len (targets m));
    do len <- lift len;
    do weights <- list_comp
      (fun _ =>
         do tgs <- self_ targets;
         do t0 <- lift (py_subscript tgs 0);
         ret (Ones (get_shape (Placeholder t0))))
      (py_range len);
    do loss_fct <- sequence_loss logits (map Placeholder <$> tgs) weights
                     sigmoid_cross_entropy_with_logits;
    exec tf_scalar_summary "training_loss" loss_fct;
    do lr <- self_ (fun m => args_learning_rate (args m));
    let opt := {| learning_rate := lr; beta1 := 9 # 10;
                  beta2 := 999 # 1000; epsilon := 1 # 100000000 |} in
    modify (set_opt_op (Some (Minimize opt loss_fct)))
  else ret tt.

Definition __init__ (a : Args) : Comp world unit :=
  exec modify (fun w =>
    {| self := {| args := a; inputs := None; targets := None;
                  opt_op := None; outputs := None; final_state := None |};
       default_graph := default_graph w |});
  _build_network.

(** The world before [__init__] runs: the new object has no attribute yet,
    and [__init__] assigns every field before anything reads it. *)
Definition blank (g : graph) : world :=
  {| self := {| args := {| batch_size := 0; sample_length := 0;
                          hidden_size := 0; num_layers := 0;
                          args_learning_rate := 0; test := false |};
                inputs := None; targets := None; opt_op := None;
                outputs := None; final_state := None |};
     default_graph := g |}.

(** [Model(args)] in the default graph [g]: the object [__init__] leaves
    behind, or the exception it raises, and the graph afterwards. *)
Definition Model_new (a : Args) (g : graph) : outcome Model * graph :=
  match __init__ a (blank g) with
  | (Ok _, w) => (Ok (self w), default_graph w)
  | (Raise e, w) => (Raise e, default_graph w)
  end.

(** The body of the training loop of [step]: the right-hand side of each
    assignment is evaluated before its key. *)
Definition feed_placeholders (batch : Batch) (i : Z)
    (feed_dict : gmap placeholder ndarray)
    : Comp world (gmap placeholder ndarray) :=
  do xs <- getattr (batch_inputs batch);
  do x <- lift (py_index xs i);
  do ins <- self_ inputs;
  do k <- lift (py_subscript ins i);
  let feed_dict := <[k := x]> feed_dict in
  do ys <- getattr (batch_targets batch);
  do y <- lift (py_index ys i);
  do tgs <- self_ targets;
  do k <- lift (py_subscript tgs i);
  let feed_dict := <[k := y]> feed_dict in
  ret feed_dict.

Definition step (batch : Batch)
    : Comp world (list handle * gmap placeholder ndarray) :=
  let feed_dict : gmap placeholder ndarray := ∅ in
  do t <- self_ (fun m => test (args m));
  if negb t then
    do n <- self_ (fun m => sample_length (args m));
    do feed_dict <- for_ (py_range n) feed_dict (feed_placeholders batch);
    do op <- self_ opt_op;
    let ops := [handle_of_op op] in
    ret (ops, feed_dict)
  else
    do xs <- getattr (batch_inputs batch);
    do x <- lift (py_index xs 0);
    do ins <- self_ inputs;
    do k <- lift (py_subscript ins 0);
    let feed_dict := <[k := x]> feed_dict in
    do outs <- self_ outputs;
    let ops := [handle_of_tensors outs] in
    ret (ops, feed_dict).

End Model.

(** ** Reading the built graph *)

(** The placeholders a tensor is computed from. *)
Fixpoint tensor_placeholders (t : tensor) : gset placeholder :=
  match t with
  | Placeholder p => {[ p ]}
  | Var _ | Constant _ | Zeros _ | Ones _ => ∅
  | MatMul a b | Add a b | Sub a b | Mul a b =>
      tensor_placeholders a ∪ tensor_placeholders b
  | Sigmoid a => tensor_placeholders a
  | LSTMCellC _ _ inp c h | LSTMCellH _ _ inp c h =>
      tensor_placeholders inp ∪ tensor_placeholders c ∪ tensor_placeholders h
  end.

(** The variables a tensor reads. *)
Fixpoint tensor_variables (t : tensor) : gset variable :=
  match t with
  | Var v => {[ v ]}
  | Placeholder _ | Constant _ | Zeros _ | Ones _ => ∅
  | MatMul a b | Add a b | Sub a b | Mul a b =>
      tensor_variables a ∪ tensor_variables b
  | Sigmoid a => tensor_variables a
  | LSTMCellC _ _ inp c h | LSTMCellH _ _ inp c h =>
      tensor_variables inp ∪ tensor_variables c ∪ tensor_variables h
  end.

(** [t] is computed from placeholders in [P] and variables in [V] only. *)
Definition supported (P : gset placeholder) (V : gset variable)
    (t : tensor) : Prop :=
  tensor_placeholders t ⊆ P ∧ tensor_variables t ⊆ V.

Definition state_supported (P : gset placeholder) (V : gset variable)
    (s : rnn_state) : Prop :=
  Forall (fun st => supported P V (st_c st) ∧ supported P V (st_h st)) s.

(** The operand [X] of a projected output [matmul(X, W) + b], with the
    projection parameters it was made with. *)
Definition unproject (o : tensor) : option (tensor * variable * variable) :=
  match o with
  | Add (MatMul X (Var W)) (Var b) => Some (X, W, b)
  | _ => None
  end.

(** The input that entered the bottom layer of the stack to produce the
    recurrent output [o] (the hidden state of the top layer). *)
Fixpoint stack_input (o : tensor) : option tensor :=
  match o with
  | LSTMCellH layer _ inp _ _ =>
      match layer with
      | O => Some inp
      | S _ => stack_input inp
      end
  | _ => None
  end.

(** The input fed to the recurrent stack at the time step whose projected
    output is [o]. *)
Definition fed_input (o : tensor) : option tensor :=
  match unproject o with
  | Some (X, _, _) => stack_input X
  | None => None
  end.

(** [f 0 + ... + f (n-1)] *)
Fixpoint sum_upto (n : nat) (f : nat -> R) : R :=
  match n with
  | O => 0%R
  | S k => (sum_upto k f + f k)%R
  end.

Definition sigmoid (x : R) : R := (1 / (1 + exp (- x)))%R.

(** Entries of a tensor over the reals, for a valuation [rho] of the graph's
    leaves and of the cell's nodes; every entry is read at the position
    [(r, c)] of the broadcast result. *)
Fixpoint eval (rho : tensor -> nat -> nat -> R) (t : tensor) (r c : nat) : R :=
  match t with
  | Constant q => Q2R q
  | Zeros _ => 0%R
  | Ones _ => 1%R
  | MatMul a b =>
      let inner := match get_shape a with
                   | [_; k] => Z.to_nat k
                   | _ => O
                   end in
      sum_upto inner (fun k => (eval rho a r k * eval rho b k c)%R)
  | Add a b => (eval rho a r c + eval rho b r c)%R
  | Sub a b => (eval rho a r c - eval rho b r c)%R
  | Mul a b => (eval rho a r c * eval rho b r c)%R
  | Sigmoid a => sigmoid (eval rho a r c)
  | _ => rho t r c
  end.

(** ** Configurations and the closed form of the allocated slots *)

(** A structurally valid configuration: positive sizes. *)
Definition valid_config (a : Args) : Prop :=
  0 < batch_size a ∧ 0 < sample_length a ∧
  0 < hidden_size a ∧ 0 < num_layers a.

(** The variable scope of the projection is still free in [g]. *)
Definition projection_free (g : graph) : Prop :=
  variables g !! "note_projection/weights" = None ∧
  variables g !! "note_projection/bias" = None.

(** [k] placeholders made one after the other from identity [u] on. *)
Definition fresh_placeholders (u k : nat) (name : string) (shape : list Z)
    : list placeholder :=
  (fun j => {| ph_uid := j; ph_requested_name := name; ph_dtype := float32;
               ph_shape := shape |}) <$> seq u k.

Definition bump (k : nat) (g : graph) : graph :=
  {| next_uid := (next_uid g + k)%nat; variables := variables g;
     summaries := summaries g |}.

(** The Adam optimizer the class configures. *)
Definition adam (lr : Q) : AdamOptimizer :=
  {| learning_rate := lr; beta1 := 9 # 10; beta2 := 999 # 1000;
     epsilon := 1 # 100000000 |}.

(** ** The closed form of a built model

    What [_build_network] leaves behind on a valid configuration [a] in a
    graph [g], given the recurrent outputs [raws] and the final state [fs]
    that the decoder returned. *)

Section ClosedForm.

Variable NB_NOTES : Z.
Variable a : Args.
Variable g : graph.

Definition slots : nat := Z.to_nat (sample_length a).

Definition input_slots : list placeholder :=
  fresh_placeholders (next_uid g) slots
    "placeholder_inputs/input" [batch_size a; NB_NOTES].

Definition target_slots : list placeholder :=
  fresh_placeholders (next_uid g + slots) slots
    "placeholder_targets/target" [batch_size a; NB_NOTES].

Definition projection_W : variable :=
  {| var_uid := next_uid g + slots + slots;
     var_name := "note_projection/weights";
     var_shape := [hidden_size a; NB_NOTES];
     var_init := truncated_normal_initializer |}.

Definition projection_b : variable :=
  {| var_uid := S (next_uid g + slots + slots);
     var_name := "note_projection/bias";
     var_shape := [NB_NOTES];
     var_init := truncated_normal_initializer |}.

(** The tensor [loop_rnn] returns at position [k] for the previous
    recurrent output [prev]. *)
Definition next_input (prev : tensor) (k : nat) : tensor :=
  if test a then
    scaled_sigmoid (project_note projection_W projection_b prev)
  else
    default prev (Placeholder <$> input_slots !! k).

Definition training_loss (raws : list tensor) : loss_tensor :=
  {| loss_logits := project_note projection_W projection_b <$> raws;
     loss_targets := Placeholder <$> target_slots;
     loss_weights := replicate slots (Ones [batch_size a; NB_NOTES]);
     softmax_loss_function := sigmoid_cross_entropy_with_logits |}.

Definition built_model (raws : list tensor) (fs : rnn_state) : Model :=
  {| args := a;
     inputs := Some input_slots;
     targets := Some target_slots;
     opt_op := if test a then None
               else Some (Minimize (adam (args_learning_rate a))
                                   (training_loss raws));
     outputs := Some (project_note projection_W projection_b <$> raws);
     final_state := Some fs |}.

Definition built_graph (raws : list tensor) : graph :=
  {| next_uid := S (S (next_uid g + slots + slots));
     variables :=
       <["note_projection/bias" := projection_b]>
         (<["note_projection/weights" := projection_W]> (variables g));
     summaries :=
       if test a then summaries g
       else summaries g ++ [("training_loss", training_loss raws)] |}.

(** The placeholders the recurrent outputs may depend on: the first input
    slot when the model feeds itself, every input slot otherwise. *)
Definition reachable_slots : gset placeholder :=
  if test a then list_to_set (take 1 input_slots)
  else list_to_set input_slots.

Definition projection_variables : gset variable :=
  {[ projection_W; projection_b ]}.

(** The variables the recurrent outputs may read: the projection's when the
    model feeds itself, none otherwise. *)
Definition reachable_variables : gset variable :=
  if test a then projection_variables else ∅.

(** The world a method of the built model runs in, for an ambient graph
    [gr]. *)
Definition built_world (raws : list tensor) (fs : rnn_state) (gr : graph)
    : world :=
  {| self := built_model raws fs; default_graph := gr |}.

End ClosedForm.

(** ** The decoder run of a construction *)

Section Decoding.

Variable NB_NOTES : Z.
Variable a : Args.
Variable g : graph.

(** The stack [_build_network] makes: [num_layers] times the one cell. *)
Definition rnn_stack : MultiRNNCell :=
  {| cells := replicate (Z.to_nat (num_layers a))
                {| num_units := hidden_size a |} |}.

(** The world [rnn_decoder] is called in: the slots and the projection are
    allocated, the other fields are still [None]. *)
Definition decoding_world : world :=
  {| self := {| args := a;
                inputs := Some (input_slots NB_NOTES a g);
                targets := Some (target_slots NB_NOTES a g);
                opt_op := None; outputs := None; final_state := None |};
     default_graph :=
       {| next_uid := S (S (next_uid g + slots a + slots a));
          variables :=
            <["note_projection/bias" := projection_b NB_NOTES a g]>
              (<["note_projection/weights" := projection_W NB_NOTES a g]>
                 (variables g));
          summaries := summaries g |} |}.

(** The decoder call of [_build_network] returned [raws] and [fs]. *)
Definition decoded (raws : list tensor) (fs : rnn_state) : Prop :=
  rnn_decoder (Some (map Placeholder (input_slots NB_NOTES a g)))
    (zero_state rnn_stack (batch_size a)) rnn_stack
    (Some (loop_rnn (projection_W NB_NOTES a g) (projection_b NB_NOTES a g)))
    decoding_world
  = (Ok (raws, fs), decoding_world).

(** The input slots of the steps [0 .. k-1]. *)
Definition slots_before (k : nat) : gset placeholder :=
  list_to_set (take k (input_slots NB_NOTES a g)).

(** The input slots the steps [0 .. k-1] can read: all of theirs when the
    slots drive the stack, the first one when the model feeds itself. *)
Definition slots_read (k : nat) : gset placeholder :=
  if test a then slots_before (Nat.min k 1) else slots_before k.

End Decoding.

(** A small configuration of [n] steps and [layers] layers, for the
    examples. *)
Definition small_config (n layers : Z) (t : bool) : Args :=
  {| batch_size := 1; sample_length := n; hidden_size := 8;
     num_layers := layers; args_learning_rate := 1 # 1000; test := t |}.

(** The first [n] arrays of each sequence of a batch. *)
Definition truncate_batch (n : nat) (batch : Batch) : Batch :=
  {| batch_inputs := take n <$> batch_inputs batch;
     batch_targets := take n <$> batch_targets batch |}.

(** The reading of the slots that makes target slots in training mode
    only: a model built with the test flag set holds no target slot. *)
Definition targets_in_training_only (m : Model) : Prop :=
  test (args m) = true -> targets m = None ∨ targets m = Some [].

(** The reading of the loss that takes its logits before the projection:
    at every step the logit handed to the loss is the operand [X] of that
    step's output [matmul(X, W) + b]. *)
Definition loss_on_preprojection (m : Model) : Prop :=
  ∃ opt loss outs,
    opt_op m = Some (Minimize opt loss) ∧
    outputs m = Some outs ∧
    length (loss_logits loss) = length outs ∧
    ∀ t o, outs !! t = Some o ->
      ∃ X W b, unproject o = Some (X, W, b) ∧ loss_logits loss !! t = Some X.

(** The configurations of the specification's scenarios, with 88 notes, and
    a batch of all-zero arrays for them. *)
Definition scenario (t : bool) : Args :=
  {| batch_size := 1; sample_length := 4; hidden_size := 8; num_layers := 1;
     args_learning_rate := 1 # 1000; test := t |}.

Definition zeros_array : ndarray := [replicate 88 0%Q].

Definition scenario_batch : Batch :=
  {| batch_inputs := Some (replicate 4 zeros_array);
     batch_targets := Some (replicate 4 zeros_array) |}.

Definition inputs_only_batch : Batch :=
  {| batch_inputs := Some [zeros_array]; batch_targets := None |}.

(** Further batches for the model of four steps: one an input array short,
    one with spare arrays in both sequences, one with no input array. *)
Definition short_batch : Batch :=
  {| batch_inputs := Some (replicate 3 zeros_array);
     batch_targets := Some (replicate 4 zeros_array) |}.

Definition long_batch : Batch :=
  {| batch_inputs := Some (replicate 5 zeros_array);
     batch_targets := Some (replicate 6 zeros_array) |}.

Definition empty_batch : Batch :=
  {| batch_inputs := Some []; batch_targets := None |}.

(** A computation that never changes the state it runs on, whether it
    returns or raises. *)
Definition readonly {St A} (c : Comp St A) : Prop :=
  ∀ s, (c s).2 = s.

(** ** Running computations *)

Lemma bind_Ok {St A B} (c : Comp St A) (k : A -> Comp St B) s a s' :
  c s = (Ok a, s') -> bind c k s = k a s'.
Proof. intros H. unfold bind. now rewrite H. Qed.

Lemma bind_self {A B} (field : Model -> A) (k : A -> Comp world B) w :
  bind (self_ field) k w = k (field (self w)) w.
Proof. reflexivity. Qed.

Lemma bind_modify {St B} (f : St -> St) (k : unit -> Comp St B) s :
  bind (modify f) k s = k tt (f s).
Proof. reflexivity. Qed.

Lemma bind_ret {St A B} (x : A) (k : A -> Comp St B) s :
  bind (ret x) k s = k x s.
Proof. reflexivity. Qed.

Lemma py_range_length n : length (py_range n) = Z.to_nat n.
Proof. unfold py_range. now rewrite length_fmap, length_seq. Qed.

Lemma py_index_lookup {A} (l : list A) (i : nat) (x : A) :
  l !! i = Some x -> py_index l (Z.of_nat i) = Ok x.
Proof.
  intros H. unfold py_index.
  pose proof (lookup_lt_Some _ _ _ H) as Hlt.
  destruct (Z.ltb_spec (Z.of_nat i) 0) as [Hneg|_]; [lia|].
  destruct (Z.leb_spec 0 (Z.of_nat i)) as [_|Hneg]; [|lia].
  destruct (Z.ltb_spec (Z.of_nat i) (Z.of_nat (length l))) as [_|Hge]; [|lia].
  cbn. now rewrite Nat2Z.id, H.
Qed.

Lemma fresh_placeholders_length u k name shape :
  length (fresh_placeholders u k name shape) = k.
Proof. unfold fresh_placeholders. now rewrite length_fmap, length_seq. Qed.

Lemma fresh_placeholders_lookup u k name shape i :
  (i < k)%nat ->
  fresh_placeholders u k name shape !! i =
    Some {| ph_uid := u + i; ph_requested_name := name; ph_dtype := float32;
            ph_shape := shape |}.
Proof.
  intros H. unfold fresh_placeholders. rewrite list_lookup_fmap.
  now rewrite lookup_seq_lt.
Qed.

Lemma fresh_placeholders_inv u k name shape i p :
  fresh_placeholders u k name shape !! i = Some p ->
  (i < k)%nat ∧
  p = {| ph_uid := u + i; ph_requested_name := name; ph_dtype := float32;
         ph_shape := shape |}.
Proof.
  intros H.
  assert (i < k)%nat as Hlt.
  { apply lookup_lt_Some in H. now rewrite fresh_placeholders_length in H. }
  split; [exact Hlt|].
  rewrite fresh_placeholders_lookup in H by exact Hlt. congruence.
Qed.

Section ModelFacts.

Variable NB_NOTES : Z.

(** A comprehension of [tf.placeholder] calls allocates consecutive
    identities and leaves the object alone. *)
Lemma list_comp_placeholders scope name (xs : list Z) (w : world) :
  list_comp
    (fun _ =>
       do bs <- self_ (fun m => batch_size (args m));
       tf_placeholder scope float32 [bs; NB_NOTES] name) xs w =
  (Ok (fresh_placeholders (next_uid (default_graph w)) (length xs)
         (scope +:+ "/" +:+ name) [batch_size (args (self w)); NB_NOTES]),
   set_graph (bump (length xs) (default_graph w)) w).
Proof.
  revert w. induction xs as [|x xs IH]; intros [m g].
  - cbn. unfold ret, set_graph, bump. cbn. destruct g as [u vs ss]. cbn.
    now rewrite Nat.add_0_r.
  - cbn [list_comp]. unfold bind at 1. unfold bind at 1. cbn.
    rewrite (bind_Ok _ _ _ _ _ (IH _)). cbn.
    unfold ret, set_graph, bump. cbn.
    repeat f_equal. lia.
Qed.

End ModelFacts.

(** ** The recurrent stack and the decoder *)

Lemma supported_cell P V layer n inp c h :
  supported P V inp -> supported P V c -> supported P V h ->
  supported P V (LSTMCellC layer n inp c h) ∧
  supported P V (LSTMCellH layer n inp c h).
Proof.
  unfold supported. cbn. intros [Hi Hi'] [Hc Hc'] [Hh Hh'].
  repeat split; repeat apply union_least; assumption.
Qed.

Lemma supported_project P V W b X :
  W ∈ V -> b ∈ V -> supported P V X ->
  supported P V (Add (MatMul X (Var W)) (Var b)).
Proof.
  unfold supported. cbn. intros HW Hb [Hp Hv].
  split; repeat apply union_least;
    try assumption; try apply empty_subseteq;
    now apply singleton_subseteq_l.
Qed.

Lemma supported_scaled_sigmoid P V X :
  supported P V X -> supported P V (scaled_sigmoid X).
Proof.
  unfold supported. cbn. intros [Hp Hv].
  split; repeat apply union_least; try assumption; apply empty_subseteq.
Qed.

Lemma supported_placeholder P V p :
  p ∈ P -> supported P V (Placeholder p).
Proof.
  unfold supported. cbn. intros Hp.
  split; [now apply singleton_subseteq_l | apply empty_subseteq].
Qed.

Lemma zero_state_supported P V cell batch :
  state_supported P V (zero_state cell batch).
Proof.
  unfold state_supported, zero_state. apply Forall_fmap, Forall_true.
  intros c. unfold supported. cbn.
  repeat split; apply empty_subseteq.
Qed.

Lemma zero_state_length cell batch :
  length (zero_state cell batch) = length (cells cell).
Proof. unfold zero_state. now rewrite length_fmap. Qed.

(** One pass through the layers [i, i+1, ...] of the stack: it succeeds when
    the state has a tuple for each layer, leaves the ambient state alone, and
    its output is the hidden state of the last layer, whose chain of inputs
    leads down to [inp]. *)
Lemma MultiRNNCell_layers_run {St} (cs : list BasicLSTMCell) :
  ∀ (i : nat) (inp : tensor) (state : rnn_state) (s : St),
    (i + length cs ≤ length state)%nat ->
    ∃ out new,
      MultiRNNCell_layers i cs inp state s = (Ok (out, new), s) ∧
      length new = length cs ∧
      match cs with
      | [] => out = inp
      | _ :: _ => ∃ n c h, stack_input out = stack_input (LSTMCellH i n inp c h)
      end ∧
      ∀ P V, supported P V inp -> state_supported P V state ->
             supported P V out ∧ state_supported P V new.
Proof.
  induction cs as [|cell rest IH]; intros i inp state s Hlen.
  - exists inp, []. cbn. split; [reflexivity|]. split; [reflexivity|].
    split; [reflexivity|]. intros P V Hinp _. split; [exact Hinp|constructor].
  - cbn [length] in Hlen.
    destruct (lookup_lt_is_Some_2 state i ltac:(lia)) as [cur Hcur].
    destruct (IH (S i) (LSTMCellH i (num_units cell) inp (st_c cur) (st_h cur))
                state s ltac:(lia)) as (out & new & Hrun & Hnew & Hshape & Hsup).
    exists out,
      ({| st_c := LSTMCellC i (num_units cell) inp (st_c cur) (st_h cur);
          st_h := LSTMCellH i (num_units cell) inp (st_c cur) (st_h cur) |}
       :: new).
    split; [|split; [|split]].
    + cbn [MultiRNNCell_layers].
      rewrite (bind_Ok _ _ _ cur s) by
        (unfold lift; now rewrite (py_index_lookup _ _ _ Hcur)).
      cbn [BasicLSTMCell_call].
      now rewrite (bind_Ok _ _ _ _ _ Hrun).
    + cbn. now rewrite Hnew.
    + destruct rest as [|cell' rest'].
      * subst out. eauto.
      * destruct Hshape as (n & c & h & Hshape).
        exists (num_units cell), (st_c cur), (st_h cur).
        rewrite Hshape. reflexivity.
    + intros P V Hinp Hstate.
      assert (supported P V (st_c cur) ∧ supported P V (st_h cur)) as [Hc Hh].
      { unfold state_supported in Hstate. rewrite Forall_lookup in Hstate.
        exact (Hstate _ _ Hcur). }
      destruct (supported_cell P V i (num_units cell) _ _ _ Hinp Hc Hh)
        as [HC HH].
      destruct (Hsup P V HH Hstate) as [Hout Hnews].
      split; [exact Hout|]. constructor; [split; assumption | exact Hnews].
Qed.

Lemma MultiRNNCell_call_run {St} (cell : MultiRNNCell) (inp : tensor)
    (state : rnn_state) (s : St) :
  cells cell ≠ [] ->
  length state = length (cells cell) ->
  ∃ out new,
    MultiRNNCell_call cell inp state s = (Ok (out, new), s) ∧
    length new = length state ∧
    stack_input out = Some inp ∧
    ∀ P V, supported P V inp -> state_supported P V state ->
           supported P V out ∧ state_supported P V new.
Proof.
  intros Hne Hlen. unfold MultiRNNCell_call.
  destruct (MultiRNNCell_layers_run (cells cell) 0 inp state s ltac:(lia))
    as (out & new & Hrun & Hnew & Hshape & Hsup).
  exists out, new.
  split; [exact Hrun|]. split; [congruence|]. split; [|exact Hsup].
  destruct (cells cell) as [|c cs]; [congruence|].
  destruct Hshape as (n & c' & h & ->). reflexivity.
Qed.

(** The decoder with a loop function [f] that, on the ambient state [s],
    returns [F prev k] at every position [k < N] without changing [s]:
    from position [i] on it succeeds, produces one output per decoder input,
    feeds the stack with [F] of the previous output at every position after
    the one it starts at, and only reaches leaves that its first input, its
    state and [F] reach. *)
Lemma rnn_decoder_from_run {St} (cell : MultiRNNCell)
    (f : tensor -> Z -> Comp St tensor) (F : tensor -> nat -> tensor)
    (N : nat) (s : St) (P : gset placeholder) (V : gset variable) :
  cells cell ≠ [] ->
  (∀ p k, (k < N)%nat -> f p (Z.of_nat k) s = (Ok (F p k), s)) ->
  (∀ p k, (k < N)%nat -> supported P V p -> supported P V (F p k)) ->
  ∀ (dec : list tensor) (i : nat) (state : rnn_state) (prev : option tensor),
    (i + length dec ≤ N)%nat ->
    length state = length (cells cell) ->
    state_supported P V state ->
    (prev = None -> ∀ d, dec !! 0%nat = Some d -> supported P V d) ->
    (∀ p, prev = Some p -> supported P V p) ->
    ∃ outs final,
      rnn_decoder_from (Z.of_nat i) dec state cell (Some f) prev s
        = (Ok (outs, final), s) ∧
      length outs = length dec ∧
      length final = length (cells cell) ∧
      Forall (supported P V) outs ∧
      state_supported P V final ∧
      (∀ o, outs !! 0%nat = Some o ->
            stack_input o = match prev with
                            | Some p => Some (F p i)
                            | None => dec !! 0%nat
                            end) ∧
      (∀ t o o', outs !! t = Some o -> outs !! S t = Some o' ->
                 stack_input o' = Some (F o (i + S t)%nat)).
Proof.
  intros Hne Hf HF.
  induction dec as [|inp rest IH];
    intros i state prev Hi Hlen Hstate Hdec Hprev.
  - exists [], state. cbn.
    split; [reflexivity|]. split; [reflexivity|]. split; [exact Hlen|].
    split; [constructor|]. split; [exact Hstate|].
    split; intros; discriminate.
  - cbn [length] in Hi.
    set (inp' := match prev with Some p => F p i | None => inp end).
    assert (match prev with
            | Some p => f p (Z.of_nat i)
            | None => ret inp
            end s = (Ok inp', s)) as Hinp.
    { subst inp'. destruct prev as [p|]; [apply Hf; lia | reflexivity]. }
    assert (supported P V inp') as Hsup.
    { subst inp'. destruct prev as [p|].
      - apply HF; [lia | now apply Hprev].
      - now apply Hdec. }
    destruct (MultiRNNCell_call_run cell inp' state s Hne Hlen)
      as (out & new & Hcall & Hnew & Hstack & Hcell).
    destruct (Hcell P V Hsup Hstate) as [Hout Hnews].
    destruct (IH (S i) new (Some out) ltac:(lia) ltac:(congruence) Hnews
                ltac:(discriminate)
                ltac:(intros p [= <-]; exact Hout))
      as (outs & final & Hrun & Hlo & Hlf & Hso & Hsf & Hhead & Hnext).
    exists (out :: outs), final.
    split; [|split; [|split; [|split; [|split; [|split]]]]].
    + cbn [rnn_decoder_from].
      rewrite (bind_Ok _ _ _ _ _ Hinp).
      rewrite (bind_Ok _ _ _ _ _ Hcall).
      replace (Z.of_nat i + 1) with (Z.of_nat (S i)) by lia.
      now rewrite (bind_Ok _ _ _ _ _ Hrun).
    + cbn. now rewrite Hlo.
    + exact Hlf.
    + now constructor.
    + exact Hsf.
    + intros o [= <-]. rewrite Hstack. subst inp'.
      now destruct prev.
    + intros [|t] o o' Ho Ho'; cbn in Ho, Ho'.
      * injection Ho as <-. rewrite (Hhead _ Ho').
        now replace (i + 1)%nat with (S i) by lia.
      * rewrite (Hnext _ _ _ Ho Ho').
        now replace (i + S (S t))%nat with (S i + S t)%nat by lia.
Qed.

(** ** Construction *)

Lemma outputs_append_run proj (w : world) (acc : list tensor) :
  outputs (self w) = Some acc ->
  outputs_append proj w = (Ok tt, set_outputs (Some (acc ++ [proj])) w).
Proof.
  intros Hacc. unfold outputs_append. rewrite bind_self, Hacc. reflexivity.
Qed.

(** The final projection appends the projection of every recurrent output,
    in order. *)
Lemma final_output_run W b (outs : list tensor) :
  ∀ (w : world) (acc : list tensor),
    outputs (self w) = Some acc ->
    final_output W b outs w =
      (Ok tt, set_outputs (Some (acc ++ (project_note W b <$> outs))) w).
Proof.
  induction outs as [|o outs IH]; intros [m gr] acc Hacc.
  - cbn. unfold ret, set_outputs. cbn. rewrite app_nil_r.
    destruct m. cbn in *. now subst.
  - cbn [final_output].
    rewrite (bind_Ok _ _ _ _ _ (outputs_append_run _ _ _ Hacc)).
    rewrite (IH _ (acc ++ [project_note W b o])) by reflexivity.
    unfold set_outputs. cbn. now rewrite <- app_assoc.
Qed.

(** The per-step weights: one all-ones tensor of the first target's shape
    per target slot. *)
Lemma weights_run (xs : list Z) (w : world) t0 rest :
  targets (self w) = Some (t0 :: rest) ->
  list_comp
    (fun _ : Z =>
       do tgs <- self_ targets;
       do t0 <- lift (py_subscript tgs 0);
       ret (Ones (get_shape (Placeholder t0)))) xs w =
  (Ok (replicate (length xs) (Ones (ph_shape t0))), w).
Proof.
  intros Ht.
  assert ((do tgs <- self_ targets;
           do t0 <- lift (py_subscript tgs 0);
           ret (Ones (get_shape (Placeholder t0)))) w
          = (Ok (Ones (ph_shape t0)), w)) as Hbody.
  { rewrite bind_self, Ht. reflexivity. }
  induction xs as [|x xs IH].
  - reflexivity.
  - cbn [list_comp]. rewrite (bind_Ok _ _ _ _ _ Hbody).
    rewrite (bind_Ok _ _ _ _ _ IH). reflexivity.
Qed.

Lemma tf_get_variable_run scope name shape init (w : world) :
  variables (default_graph w) !! (scope +:+ "/" +:+ name) = None ->
  tf_get_variable scope name shape init w =
    (Ok {| var_uid := next_uid (default_graph w);
           var_name := scope +:+ "/" +:+ name;
           var_shape := shape; var_init := init |},
     set_graph
       {| next_uid := S (next_uid (default_graph w));
          variables :=
            <[scope +:+ "/" +:+ name :=
                {| var_uid := next_uid (default_graph w);
                   var_name := scope +:+ "/" +:+ name;
                   var_shape := shape; var_init := init |}]>
              (variables (default_graph w));
          summaries := summaries (default_graph w) |} w).
Proof. intros H. unfold tf_get_variable. now rewrite H. Qed.

Lemma MultiRNNCell_new_run {St} (cs : list BasicLSTMCell) (s : St) :
  cs ≠ [] -> MultiRNNCell_new cs s = (Ok {| cells := cs |}, s).
Proof. destruct cs; [congruence | reflexivity]. Qed.

Lemma sequence_loss_run {St} logits tgts weights f (s : St) :
  length tgts = length logits ->
  length weights = length logits ->
  length logits ≠ 0%nat ->
  sequence_loss (Some logits) (Some tgts) weights f s =
    (Ok {| loss_logits := logits; loss_targets := tgts;
           loss_weights := weights; softmax_loss_function := f |}, s).
Proof.
  intros H1 H2 H3. unfold sequence_loss.
  rewrite bool_decide_eq_true_2 by auto. reflexivity.
Qed.

(** Bring the world reached after a field or graph update to a literal. *)
Ltac norm_world :=
  unfold set_inputs, set_targets, set_opt_op, set_outputs, set_final_state,
         set_graph, bump;
  cbn [self default_graph args inputs targets opt_op outputs final_state
       next_uid variables summaries].

Section Construction.

Variable NB_NOTES : Z.

Lemma input_slots_length a g : length (input_slots NB_NOTES a g) = slots a.
Proof. apply fresh_placeholders_length. Qed.

Lemma target_slots_length a g : length (target_slots NB_NOTES a g) = slots a.
Proof. apply fresh_placeholders_length. Qed.

(** [loop_rnn] reads [self] and makes graph nodes; it changes nothing. *)
Lemma loop_rnn_run a g (w : world) (p : tensor) (k : nat) :
  args (self w) = a ->
  inputs (self w) = Some (input_slots NB_NOTES a g) ->
  (k < slots a)%nat ->
  loop_rnn (projection_W NB_NOTES a g) (projection_b NB_NOTES a g)
      p (Z.of_nat k) w
    = (Ok (next_input NB_NOTES a g p k), w).
Proof.
  intros Ha Hins Hk. unfold loop_rnn, next_input.
  rewrite bind_self, Ha. destruct (test a); [reflexivity|].
  rewrite bind_self, Hins. cbn [py_subscript].
  unfold input_slots in *.
  rewrite (fresh_placeholders_lookup _ _ _ _ _ Hk).
  rewrite (py_index_lookup _ _ _ (fresh_placeholders_lookup _ _ _ _ _ Hk)).
  reflexivity.
Qed.

Lemma next_input_supported a g (p : tensor) (k : nat) :
  (k < slots a)%nat ->
  supported (reachable_slots NB_NOTES a g)
            (reachable_variables NB_NOTES a g) p ->
  supported (reachable_slots NB_NOTES a g)
            (reachable_variables NB_NOTES a g)
            (next_input NB_NOTES a g p k).
Proof.
  intros Hk Hp. unfold next_input, reachable_slots, reachable_variables in *.
  destruct (test a).
  - apply supported_scaled_sigmoid, supported_project; [| |exact Hp];
      unfold projection_variables; set_solver.
  - unfold input_slots.
    rewrite (fresh_placeholders_lookup _ _ _ _ _ Hk). cbn.
    apply supported_placeholder, elem_of_list_to_set.
    apply list_elem_of_lookup. exists k.
    now apply fresh_placeholders_lookup.
Qed.

(** Construction on a valid configuration, in a graph whose projection
    scope is free: it succeeds and leaves the closed form behind, for
    recurrent outputs and a final state wired as the decoder wires them. *)
Lemma Model_new_run a g :
  valid_config a ->
  projection_free g ->
  ∃ raws fs,
    Model_new NB_NOTES a g
      = (Ok (built_model NB_NOTES a g raws fs), built_graph NB_NOTES a g raws) ∧
    length raws = slots a ∧
    length fs = Z.to_nat (num_layers a) ∧
    Forall (supported (reachable_slots NB_NOTES a g)
                      (reachable_variables NB_NOTES a g)) raws ∧
    state_supported (reachable_slots NB_NOTES a g)
                    (reachable_variables NB_NOTES a g) fs ∧
    (∀ o, raws !! 0%nat = Some o ->
          stack_input o = Placeholder <$> input_slots NB_NOTES a g !! 0%nat) ∧
    (∀ t o o', raws !! t = Some o -> raws !! S t = Some o' ->
               stack_input o' = Some (next_input NB_NOTES a g o (S t))).
Proof.
  intros (Hbs & Hn & Hhs & Hnl) [HfreeW Hfreeb].
  unfold Model_new, __init__. rewrite bind_modify. cbn [blank default_graph].
  unfold _build_network.
  (* Placeholders *)
  rewrite bind_self. cbn [self args].
  rewrite (bind_Ok _ _ _ _ _ (list_comp_placeholders _ _ _ _ _)).
  rewrite bind_modify, bind_self. norm_world.
  rewrite (bind_Ok _ _ _ _ _ (list_comp_placeholders _ _ _ _ _)).
  rewrite bind_modify, bind_self. norm_world.
  rewrite !py_range_length. fold (slots a).
  change ("placeholder_inputs" +:+ "/" +:+ "input")
    with "placeholder_inputs/input".
  change ("placeholder_targets" +:+ "/" +:+ "target")
    with "placeholder_targets/target".
  fold (input_slots NB_NOTES a g). fold (target_slots NB_NOTES a g).
  (* Projection *)
  erewrite bind_Ok; [|apply tf_get_variable_run; exact HfreeW].
  norm_world.
  erewrite bind_Ok;
    [|apply tf_get_variable_run; norm_world;
      now rewrite lookup_insert_ne by discriminate].
  norm_world.
  (* RNN network *)
  rewrite bind_self. cbn [self args]. rewrite bind_self. cbn [self args].
  assert (replicate (Z.to_nat (num_layers a))
            {| num_units := hidden_size a |} ≠ []) as Hcells.
  { destruct (Z.to_nat (num_layers a)) eqn:E; [lia | discriminate]. }
  rewrite (bind_Ok _ _ _ _ _ (MultiRNNCell_new_run _ _ Hcells)).
  rewrite bind_self. cbn [self args]. rewrite bind_self. cbn [self inputs].
  cbn [fmap option_fmap option_map]. unfold rnn_decoder.
  match goal with
  | |- context [bind (rnn_decoder_from 0 ?d0 ?st0 ?c0 (Some ?f0) None) _ ?w0] =>
      destruct (rnn_decoder_from_run c0 f0 (next_input NB_NOTES a g)
                  (slots a) w0
                  (reachable_slots NB_NOTES a g)
                  (reachable_variables NB_NOTES a g) Hcells)
        with (dec := d0) (i := 0%nat) (state := st0) (prev := @None tensor)
        as (raws & fs & Hrun & Hlen & Hfs & Hsup & Hfsup & Hhead & Hnext)
  end.
  { intros p k Hk. now apply (loop_rnn_run a g). }
  { intros p k. apply next_input_supported. }
  { cbn. rewrite length_map, input_slots_length. lia. }
  { apply zero_state_length. }
  { apply zero_state_supported. }
  { intros _ d Hd. unfold input_slots, slots in Hd.
    destruct (Z.to_nat (sample_length a)) as [|n'] eqn:E; [lia|].
    cbn in Hd. injection Hd as <-.
    apply supported_placeholder. unfold reachable_slots, input_slots, slots.
    rewrite E. destruct (test a); cbn; set_solver. }
  { discriminate. }
  rewrite (bind_Ok _ _ _ _ _ Hrun).
  rewrite !bind_modify. norm_world.
  erewrite bind_Ok; [|now apply (final_output_run _ _ _ _ [])].
  norm_world. rewrite bind_self. cbn [self args].
  assert (length raws = slots a) as Hraws.
  { rewrite Hlen, length_map. apply input_slots_length. }
  exists raws, fs. split; [|split; [exact Hraws|split; [|split; [|split; [|split]]]]].
  - destruct (test a) eqn:Ht; cbn [negb].
    + unfold built_model, built_graph. rewrite Ht. reflexivity.
    + (* For training only *)
      rewrite bind_self. cbn [self outputs].
      rewrite bind_self. cbn [self targets].
      rewrite bind_self. cbn [self targets py_len].
      change (bind (lift (Ok ?x)) ?k ?w) with (k x w). cbv beta.
      destruct (target_slots NB_NOTES a g) as [|t0 rest] eqn:Etgs.
      { pose proof (target_slots_length a g) as Hl. rewrite Etgs in Hl.
        unfold slots in Hl. cbn in Hl. lia. }
      erewrite bind_Ok; [|now eapply weights_run].
      assert (length (t0 :: rest) = slots a) as Hlt.
      { rewrite <- Etgs. apply target_slots_length. }
      assert (ph_shape t0 = [batch_size a; NB_NOTES]) as Hshape.
      { assert (target_slots NB_NOTES a g !! 0%nat = Some t0) as H0
          by now rewrite Etgs.
        apply fresh_placeholders_inv in H0 as [_ ->]. reflexivity. }
      rewrite py_range_length, Nat2Z.id, Hlt, Hshape.
      assert (slots a ≠ 0%nat) as Hpos by (unfold slots; lia).
      cbn [fmap option_fmap option_map].
      erewrite bind_Ok;
        [|apply sequence_loss_run; cbn [app];
          rewrite ?length_map, ?length_fmap, ?length_replicate; congruence].
      erewrite bind_Ok; [|reflexivity].
      rewrite bind_self. unfold modify. norm_world.
      unfold built_model, built_graph, training_loss. rewrite Ht, Etgs.
      reflexivity.
  - rewrite Hfs. cbn. apply length_replicate.
  - exact Hsup.
  - exact Hfsup.
  - intros o Ho. rewrite (Hhead o Ho). apply list_lookup_fmap.
  - exact Hnext.
Qed.

End Construction.

(** ** [step] *)

Lemma readonly_ret {St A} (x : A) : readonly (St := St) (ret x).
Proof. intros s. reflexivity. Qed.

Lemma readonly_raise {St A} (e : exn) : readonly (St := St) (A := A) (raise e).
Proof. intros s. reflexivity. Qed.

Lemma readonly_lift {St A} (o : outcome A) : readonly (St := St) (lift o).
Proof. intros s. reflexivity. Qed.

Lemma readonly_self {A} (field : Model -> A) : readonly (self_ field).
Proof. intros s. reflexivity. Qed.

Lemma readonly_getattr {St A} (field : option A) :
  readonly (St := St) (getattr field).
Proof. destruct field; intros s; reflexivity. Qed.

Lemma readonly_bind {St A B} (c : Comp St A) (k : A -> Comp St B) :
  readonly c -> (∀ a, readonly (k a)) -> readonly (bind c k).
Proof.
  intros Hc Hk s. unfold bind. specialize (Hc s).
  destruct (c s) as [[a|e] s']; cbn in Hc; subst s'; [apply Hk | reflexivity].
Qed.

Lemma readonly_for {St A B} (xs : list A) (body : A -> B -> Comp St B) :
  (∀ x acc, readonly (body x acc)) -> ∀ acc, readonly (for_ xs acc body).
Proof.
  intros Hbody. induction xs as [|x xs IH]; intros acc; cbn [for_].
  - apply readonly_ret.
  - apply readonly_bind; [apply Hbody | exact IH].
Qed.

Create HintDb readonly.

#[local] Hint Resolve readonly_ret readonly_raise readonly_lift readonly_self
  readonly_getattr : readonly.

Lemma readonly_feed_placeholders batch i fd :
  readonly (feed_placeholders batch i fd).
Proof.
  unfold feed_placeholders.
  repeat (apply readonly_bind; [auto with readonly | intros ?]).
  apply readonly_ret.
Qed.

Lemma readonly_step batch : readonly (step batch).
Proof.
  unfold step. apply readonly_bind; [auto with readonly | intros t].
  destruct t; cbn [negb].
  - repeat (apply readonly_bind; [auto with readonly | intros ?]).
    apply readonly_ret.
  - apply readonly_bind; [auto with readonly | intros n].
    apply readonly_bind;
      [apply readonly_for; intros; apply readonly_feed_placeholders | intros fd].
    apply readonly_bind; [auto with readonly | intros op].
    apply readonly_ret.
Qed.

Lemma for_app {St A B} (l1 l2 : list A) (body : A -> B -> Comp St B) :
  ∀ acc s,
    for_ (l1 ++ l2) acc body s =
    bind (for_ l1 acc body) (fun acc' => for_ l2 acc' body) s.
Proof.
  induction l1 as [|x l1 IH]; intros acc s.
  - reflexivity.
  - cbn [for_ app]. unfold bind.
    destruct (body x acc s) as [[acc1|e] s1]; [|reflexivity].
    rewrite IH. reflexivity.
Qed.

Section Feeding.

Variable w : world.
Variable batch : Batch.
Variables (ins tgs : list placeholder) (xs ys : list ndarray).
Hypothesis Hins : inputs (self w) = Some ins.
Hypothesis Htgs : targets (self w) = Some tgs.
Hypothesis Hxs : batch_inputs batch = Some xs.
Hypothesis Hys : batch_targets batch = Some ys.

(** One turn of the training loop binds the input slot and the target slot
    of its position. *)
Lemma feed_placeholders_run (k : nat) fd p q x y :
  ins !! k = Some p -> tgs !! k = Some q ->
  xs !! k = Some x -> ys !! k = Some y ->
  feed_placeholders batch (Z.of_nat k) fd w
    = (Ok (<[q := y]> (<[p := x]> fd)), w).
Proof.
  intros Hp Hq Hx Hy. unfold feed_placeholders.
  rewrite Hxs, Hys. cbn [getattr]. rewrite bind_ret.
  rewrite (py_index_lookup _ _ _ Hx).
  change (bind (lift (Ok ?v)) ?k ?s) with (k v s). cbv beta.
  rewrite bind_self, Hins. cbn [py_subscript].
  rewrite (py_index_lookup _ _ _ Hp).
  change (bind (lift (Ok ?v)) ?k ?s) with (k v s). cbv beta.
  rewrite bind_ret.
  rewrite (py_index_lookup _ _ _ Hy).
  change (bind (lift (Ok ?v)) ?k ?s) with (k v s). cbv beta.
  rewrite bind_self, Htgs. cbn [py_subscript].
  rewrite (py_index_lookup _ _ _ Hq).
  reflexivity.
Qed.

Hypothesis Hdistinct : NoDup (ins ++ tgs).

(** The first [k] turns of the loop, from an empty dictionary. *)
Lemma feed_loop_run (k : nat) :
  (k ≤ length ins)%nat -> (k ≤ length tgs)%nat ->
  (k ≤ length xs)%nat -> (k ≤ length ys)%nat ->
  ∃ fd : gmap placeholder ndarray,
    for_ (Z.of_nat <$> seq 0 k) ∅ (feed_placeholders batch) w = (Ok fd, w) ∧
    dom fd = list_to_set (take k ins) ∪ list_to_set (take k tgs) ∧
    (∀ j p, (j < k)%nat -> ins !! j = Some p -> fd !! p = xs !! j) ∧
    (∀ j q, (j < k)%nat -> tgs !! j = Some q -> fd !! q = ys !! j).
Proof.
  induction k as [|k IH]; intros Hk1 Hk2 Hk3 Hk4.
  - exists ∅. split; [reflexivity|].
    split; [now rewrite !take_0, dom_empty_L, list_to_set_nil,
                        (left_id_L ∅ (∪))|].
    split; intros; lia.
  - destruct IH as (fd & Hrun & Hdom & Hlin & Hltg); try lia.
    destruct (lookup_lt_is_Some_2 ins k ltac:(lia)) as [p Hp].
    destruct (lookup_lt_is_Some_2 tgs k ltac:(lia)) as [q Hq].
    destruct (lookup_lt_is_Some_2 xs k ltac:(lia)) as [x Hx].
    destruct (lookup_lt_is_Some_2 ys k ltac:(lia)) as [y Hy].
    destruct (proj1 (NoDup_app _ _) Hdistinct) as (Hnd_ins & Hcross & Hnd_tgs).
    exists (<[q := y]> (<[p := x]> fd)).
    split; [|split; [|split]].
    + rewrite seq_S, fmap_app, for_app. cbn [fmap list_fmap].
      rewrite (bind_Ok _ _ _ _ _ Hrun). cbn [for_ Nat.add].
      rewrite (bind_Ok _ _ _ _ _
                 (feed_placeholders_run k fd p q x y Hp Hq Hx Hy)).
      reflexivity.
    + rewrite !dom_insert_L, Hdom.
      rewrite (take_S_r _ _ _ Hp), (take_S_r _ _ _ Hq).
      apply set_eq. intros z.
      rewrite !elem_of_union, !elem_of_list_to_set, !elem_of_app,
        !elem_of_singleton, !list_elem_of_singleton.
      tauto.
    + intros j p' Hj Hp'.
      assert (p' ≠ q) as Hpq.
      { intros ->. apply (Hcross q); eapply list_elem_of_lookup_2; eauto. }
      rewrite lookup_insert_ne by congruence.
      destruct (decide (j = k)) as [->|Hne].
      * assert (p' = p) as -> by congruence.
        now rewrite lookup_insert_eq.
      * assert (p ≠ p') as Hpp.
        { intros ->. apply Hne.
          exact (NoDup_lookup _ _ _ _ Hnd_ins Hp' Hp). }
        rewrite lookup_insert_ne by exact Hpp.
        apply Hlin; [lia | exact Hp'].
    + intros j q' Hj Hq'.
      destruct (decide (j = k)) as [->|Hne].
      * assert (q' = q) as -> by congruence.
        now rewrite lookup_insert_eq.
      * assert (q ≠ q') as Hqq.
        { intros ->. apply Hne.
          exact (NoDup_lookup _ _ _ _ Hnd_tgs Hq' Hq). }
        rewrite lookup_insert_ne by exact Hqq.
        assert (p ≠ q') as Hpq.
        { intros ->. apply (Hcross q'); eapply list_elem_of_lookup_2; eauto. }
        rewrite lookup_insert_ne by exact Hpq.
        apply Hltg; [lia | exact Hq'].
Qed.

End Feeding.

Lemma fresh_placeholders_uid u k name shape :
  ph_uid <$> fresh_placeholders u k name shape = seq u k.
Proof.
  unfold fresh_placeholders. revert u.
  induction k as [|k IH]; intros u; cbn; [reflexivity|].
  f_equal. apply IH.
Qed.

(** Placeholders allocated one after the other are pairwise distinct. *)
Lemma fresh_placeholders_distinct u k k' name name' shape shape' :
  NoDup (fresh_placeholders u k name shape
         ++ fresh_placeholders (u + k) k' name' shape').
Proof.
  apply (NoDup_fmap_1 ph_uid).
  rewrite fmap_app, !fresh_placeholders_uid, <- seq_app.
  apply NoDup_seq.
Qed.

Section Stepping.

Variable NB_NOTES : Z.
Variable a : Args.
Variable g : graph.
Variable raws : list tensor.
Variable fs : rnn_state.
Variable gr : graph.

Lemma slots_distinct :
  NoDup (input_slots NB_NOTES a g ++ target_slots NB_NOTES a g).
Proof. apply fresh_placeholders_distinct. Qed.

(** [step] on a built training model. *)
Lemma step_training_run batch xs ys :
  test a = false ->
  batch_inputs batch = Some xs ->
  batch_targets batch = Some ys ->
  length xs = slots a ->
  length ys = slots a ->
  ∃ fd : gmap placeholder ndarray,
    step batch (built_world NB_NOTES a g raws fs gr)
      = (Ok ([HOperation (Minimize (adam (args_learning_rate a))
                                   (training_loss NB_NOTES a g raws))], fd),
         built_world NB_NOTES a g raws fs gr) ∧
    size fd = (2 * slots a)%nat ∧
    (∀ j p, input_slots NB_NOTES a g !! j = Some p -> fd !! p = xs !! j) ∧
    (∀ j q, target_slots NB_NOTES a g !! j = Some q -> fd !! q = ys !! j).
Proof.
  intros Ht Hxs Hys Hlx Hly.
  pose proof (input_slots_length NB_NOTES a g) as Hli.
  pose proof (target_slots_length NB_NOTES a g) as Hlt.
  destruct (feed_loop_run (built_world NB_NOTES a g raws fs gr) batch
              (input_slots NB_NOTES a g) (target_slots NB_NOTES a g) xs ys
              eq_refl eq_refl Hxs Hys slots_distinct (slots a))
    as (fd & Hrun & Hdom & Hlin & Hltg); try lia.
  exists fd. split; [|split; [|split]].
  - unfold step. rewrite bind_self. cbn [built_world self built_model args].
    rewrite Ht. cbn [negb]. rewrite bind_self.
    cbn [built_world self built_model args].
    unfold py_range, slots in *. rewrite (bind_Ok _ _ _ _ _ Hrun).
    rewrite bind_self. cbn [built_world self built_model opt_op].
    rewrite Ht. reflexivity.
  - rewrite <- size_dom, Hdom.
    rewrite <- Hli at 1. rewrite <- Hlt at 1. rewrite !firstn_all.
    rewrite <- list_to_set_app_L.
    rewrite (size_list_to_set _ slots_distinct).
    rewrite length_app, Hli, Hlt. lia.
  - intros j p Hp. apply (Hlin j p); [|exact Hp].
    apply lookup_lt_Some in Hp. lia.
  - intros j q Hq. apply (Hltg j q); [|exact Hq].
    apply lookup_lt_Some in Hq. lia.
Qed.

(** [step] on a built generation model. *)
Lemma step_generation_run batch x rest :
  test a = true ->
  (0 < slots a)%nat ->
  batch_inputs batch = Some (x :: rest) ->
  ∃ p0,
    input_slots NB_NOTES a g !! 0%nat = Some p0 ∧
    step batch (built_world NB_NOTES a g raws fs gr)
      = (Ok ([HTensors (project_note (projection_W NB_NOTES a g)
                                     (projection_b NB_NOTES a g) <$> raws)],
             {[ p0 := x ]}),
         built_world NB_NOTES a g raws fs gr).
Proof.
  intros Ht Hpos Hxs.
  destruct (lookup_lt_is_Some_2 (input_slots NB_NOTES a g) 0) as [p0 Hp0].
  { rewrite input_slots_length. exact Hpos. }
  exists p0. split; [exact Hp0|].
  unfold step. rewrite bind_self. cbn [built_world self built_model args].
  rewrite Ht. cbn [negb]. rewrite Hxs. cbn [getattr]. rewrite bind_ret.
  change (py_index (x :: rest) 0) with (Ok x).
  change (bind (lift (Ok ?v)) ?k ?s) with (k v s). cbv beta.
  rewrite bind_self. cbn [built_world self built_model inputs py_subscript].
  pose proof (py_index_lookup _ 0%nat _ Hp0) as Hidx.
  change (Z.of_nat 0) with 0 in Hidx. rewrite Hidx.
  change (bind (lift (Ok ?v)) ?k ?s) with (k v s). cbv beta.
  rewrite bind_self. reflexivity.
Qed.

End Stepping.

(** ** The rescaled sigmoid over the reals *)

Lemma sigmoid_range (x : R) : (0 < sigmoid x < 1)%R.
Proof.
  unfold sigmoid. pose proof (exp_pos (- x)) as Hpos.
  split.
  - apply Rdiv_lt_0_compat; lra.
  - apply (Rmult_lt_reg_r (1 + exp (- x))); [lra|].
    unfold Rdiv. rewrite Rmult_assoc, Rinv_l by lra. lra.
Qed.

(** The entries of the graph [loop_rnn] makes over [out] are those of
    [2 / (1 + exp (- y)) - 1], for [y] the entries of [out]. *)
Lemma scaled_sigmoid_value rho (out : tensor) (r c : nat) :
  eval rho (Sub (Mul (Constant 2) (Sigmoid out)) (Constant 1)) r c
    = (2 * (1 / (1 + exp (- eval rho out r c))) - 1)%R.
Proof.
  cbn [eval]. unfold sigmoid.
  replace (Q2R 2) with 2%R by (unfold Q2R; cbn; lra).
  replace (Q2R 1) with 1%R by (unfold Q2R; cbn; lra).
  reflexivity.
Qed.

(** Every entry of [2*sigmoid(y) - 1] lies in [[-1, 1]], whatever the graph
    [out] that computes [y] and whatever the values of its leaves. *)
Lemma scaled_sigmoid_range rho (out : tensor) (r c : nat) :
  (-1 <= eval rho (scaled_sigmoid out) r c <= 1)%R.
Proof.
  unfold scaled_sigmoid. cbn [eval].
  pose proof (sigmoid_range (eval rho out r c)) as [Hlo Hhi].
  replace (Q2R 2) with 2%R by (unfold Q2R; cbn; lra).
  replace (Q2R 1) with 1%R by (unfold Q2R; cbn; lra).
  lra.
Qed.

(** ** The properties of the specification *)

Section Claims.

Variable NB_NOTES : Z.

Lemma slots_of_nat a :
  0 < sample_length a -> Z.of_nat (slots a) = sample_length a.
Proof. unfold slots. lia. Qed.

Lemma reachable_variables_projection a g :
  reachable_variables NB_NOTES a g
  ⊆ {[ projection_W NB_NOTES a g; projection_b NB_NOTES a g ]}.
Proof.
  unfold reachable_variables, projection_variables.
  destruct (test a); [reflexivity | apply empty_subseteq].
Qed.

Lemma project_note_lookup W b (raws : list tensor) t o :
  (project_note W b <$> raws) !! t = Some o ->
  ∃ X, raws !! t = Some X ∧ o = project_note W b X.
Proof.
  rewrite list_lookup_fmap. destruct (raws !! t) as [X|]; [|discriminate].
  intros [= <-]. eauto.
Qed.

(** C1. In a model built with the test flag set, the input fed to the
    recurrent stack at step 0 is the first input slot; at every later step
    it is the graph [tf.sub(tf.mul(2.0, tf.nn.sigmoid(y)), 1.0)] over the
    projection [y = matmul(prev, W) + b] of the raw recurrent output [prev]
    of the step before, with the projection variables of the graph; its
    entries are [2 / (1 + exp (- y)) - 1] of the entries of [y] and lie in
    [[-1, 1]]; no input slot after the first occurs in any output or in the
    final state. *)
Theorem generation_feeds_back_prediction a g :
  valid_config a ->
  projection_free g ->
  test a = true ->
  ∃ m g' ins outs final W b,
    Model_new NB_NOTES a g = (Ok m, g') ∧
    inputs m = Some ins ∧ outputs m = Some outs ∧
    final_state m = Some final ∧
    Z.of_nat (length ins) = sample_length a ∧
    length outs = length ins ∧
    variables g' !! "note_projection/weights" = Some W ∧
    variables g' !! "note_projection/bias" = Some b ∧
    (∃ p0 o0, ins !! 0%nat = Some p0 ∧ outs !! 0%nat = Some o0 ∧
              fed_input o0 = Some (Placeholder p0)) ∧
    (∀ t o, outs !! S t = Some o ->
       ∃ prev y fed,
         outs !! t = Some y ∧
         y = Add (MatMul prev (Var W)) (Var b) ∧
         fed_input o = Some fed ∧
         fed = Sub (Mul (Constant 2) (Sigmoid y)) (Constant 1) ∧
         ∀ rho r c,
           eval rho fed r c
             = (2 * (1 / (1 + exp (- eval rho y r c))) - 1)%R ∧
           (-1 <= eval rho fed r c <= 1)%R) ∧
    (∀ t p, (0 < t)%nat -> ins !! t = Some p ->
       (∀ o, o ∈ outs -> p ∉ tensor_placeholders o) ∧
       (∀ st, st ∈ final ->
          (p ∉ tensor_placeholders (st_c st)) ∧
          (p ∉ tensor_placeholders (st_h st)))).
Proof.
  intros Hvalid Hfree Ht.
  destruct (Model_new_run NB_NOTES a g Hvalid Hfree)
    as (raws & fs & Hrun & Hlen & Hfs & Hsup & Hfsup & Hhead & Hnext).
  destruct Hvalid as (_ & Hn & _ & _).
  pose proof (input_slots_length NB_NOTES a g) as Hli.
  assert (0 < slots a)%nat as Hpos by (unfold slots; lia).
  destruct (lookup_lt_is_Some_2 (input_slots NB_NOTES a g) 0 ltac:(lia))
    as [p0 Hp0].
  destruct (lookup_lt_is_Some_2 raws 0 ltac:(lia)) as [X0 HX0].
  assert (reachable_slots NB_NOTES a g = {[ p0 ]}) as Hreach.
  { unfold reachable_slots. rewrite Ht.
    destruct (input_slots NB_NOTES a g) as [|q ?]; [discriminate|].
    injection Hp0 as ->. cbn. apply (right_id_L ∅ (∪)). }
  assert (∀ t p, (0 < t)%nat -> input_slots NB_NOTES a g !! t = Some p ->
                 p ≠ p0) as Hother.
  { intros t p Hpos' Hp ->.
    pose proof (slots_distinct NB_NOTES a g) as Hnd.
    apply NoDup_app in Hnd as (Hnd & _ & _).
    pose proof (NoDup_lookup _ _ _ _ Hnd Hp Hp0). lia. }
  exists (built_model NB_NOTES a g raws fs), (built_graph NB_NOTES a g raws),
    (input_slots NB_NOTES a g),
    (project_note (projection_W NB_NOTES a g) (projection_b NB_NOTES a g)
       <$> raws),
    fs, (projection_W NB_NOTES a g), (projection_b NB_NOTES a g).
  split; [exact Hrun|]. split; [reflexivity|]. split; [reflexivity|].
  split; [reflexivity|].
  split; [rewrite Hli; now apply slots_of_nat|].
  split; [now rewrite length_fmap, Hli|].
  split; [cbn; now rewrite lookup_insert_ne, lookup_insert_eq by discriminate|].
  split; [cbn; now rewrite lookup_insert_eq|].
  split; [|split].
  - exists p0, (project_note (projection_W NB_NOTES a g)
                             (projection_b NB_NOTES a g) X0).
    split; [exact Hp0|]. split; [now rewrite list_lookup_fmap, HX0|].
    cbn. rewrite (Hhead _ HX0), Hp0. reflexivity.
  - intros t o Ho.
    apply project_note_lookup in Ho as (X & HX & ->).
    destruct (lookup_lt_is_Some_2 raws t) as [prev Hprev].
    { apply lookup_lt_Some in HX. lia. }
    exists prev,
      (project_note (projection_W NB_NOTES a g) (projection_b NB_NOTES a g)
         prev),
      (scaled_sigmoid
         (project_note (projection_W NB_NOTES a g) (projection_b NB_NOTES a g)
            prev)).
    split; [now rewrite list_lookup_fmap, Hprev|].
    split; [reflexivity|].
    split.
    { cbn. rewrite (Hnext _ _ _ Hprev HX). unfold next_input.
      now rewrite Ht. }
    split; [reflexivity|].
    intros rho r c.
    split; [apply scaled_sigmoid_value | apply scaled_sigmoid_range].
  - intros t p Hpos' Hp. specialize (Hother t p Hpos' Hp).
    rewrite Hreach in Hsup, Hfsup. split.
    + intros o Ho. apply list_elem_of_fmap in Ho as (X & -> & HX).
      rewrite Forall_forall in Hsup. destruct (Hsup X HX) as [HP _].
      cbn. rewrite !elem_of_union, !elem_of_empty.
      intros [[Hin|[]]|[]]. apply HP, elem_of_singleton in Hin. contradiction.
    + intros st Hst. unfold state_supported in Hfsup.
      rewrite Forall_forall in Hfsup.
      destruct (Hfsup st Hst) as [[Hc _] [Hh _]].
      split; intros Hin; [apply Hc in Hin | apply Hh in Hin];
        apply elem_of_singleton in Hin; contradiction.
Qed.

(** C2. In a model built with the test flag unset, the input fed to the
    recurrent stack at every step [t] is the input slot of step [t]; the
    recurrent output that each step projects reads no variable, so nothing
    that went through the projection enters the stack. *)
Theorem training_is_teacher_forced a g :
  valid_config a ->
  projection_free g ->
  test a = false ->
  ∃ m g' ins outs,
    Model_new NB_NOTES a g = (Ok m, g') ∧
    inputs m = Some ins ∧ outputs m = Some outs ∧
    Z.of_nat (length ins) = sample_length a ∧
    length outs = length ins ∧
    (∀ t p, ins !! t = Some p ->
       ∃ o, outs !! t = Some o ∧ fed_input o = Some (Placeholder p)) ∧
    (∀ o, o ∈ outs ->
       ∃ X W b, unproject o = Some (X, W, b) ∧ tensor_variables X = ∅).
Proof.
  intros Hvalid Hfree Ht.
  destruct (Model_new_run NB_NOTES a g Hvalid Hfree)
    as (raws & fs & Hrun & Hlen & Hfs & Hsup & Hfsup & Hhead & Hnext).
  destruct Hvalid as (_ & Hn & _ & _).
  pose proof (input_slots_length NB_NOTES a g) as Hli.
  exists (built_model NB_NOTES a g raws fs), (built_graph NB_NOTES a g raws),
    (input_slots NB_NOTES a g),
    (project_note (projection_W NB_NOTES a g) (projection_b NB_NOTES a g)
       <$> raws).
  split; [exact Hrun|]. split; [reflexivity|]. split; [reflexivity|].
  split; [rewrite Hli; now apply slots_of_nat|].
  split; [now rewrite length_fmap, Hli|].
  split.
  - intros t p Hp.
    destruct (lookup_lt_is_Some_2 raws t) as [X HX].
    { apply lookup_lt_Some in Hp. lia. }
    exists (project_note (projection_W NB_NOTES a g)
                         (projection_b NB_NOTES a g) X).
    split; [now rewrite list_lookup_fmap, HX|]. cbn.
    destruct t as [|t].
    + now rewrite (Hhead _ HX), Hp.
    + destruct (lookup_lt_is_Some_2 raws t) as [prev Hprev].
      { apply lookup_lt_Some in HX. lia. }
      rewrite (Hnext _ _ _ Hprev HX). unfold next_input.
      now rewrite Ht, Hp.
  - intros o Ho. apply list_elem_of_fmap in Ho as (X & -> & HX).
    exists X, (projection_W NB_NOTES a g), (projection_b NB_NOTES a g).
    split; [reflexivity|].
    rewrite Forall_forall in Hsup. destruct (Hsup X HX) as [_ HV].
    unfold reachable_variables in HV. rewrite Ht in HV.
    apply set_eq. intros v. split; [apply HV | intros Hv].
    now apply not_elem_of_empty in Hv.
Qed.

Lemma fresh_placeholders_shape u k name shape :
  Forall (fun p => ph_shape p = shape) (fresh_placeholders u k name shape).
Proof.
  unfold fresh_placeholders. apply Forall_fmap, Forall_true.
  intros j. reflexivity.
Qed.

(** C3, amended. On a valid configuration the constructor succeeds and
    leaves [sample_length] input slots and, in either mode,
    [sample_length] target slots, every slot of shape
    [[batch_size, NB_NOTES]]. *)
Theorem construction_allocates_slots a g :
  valid_config a ->
  projection_free g ->
  ∃ m g' ins tgs,
    Model_new NB_NOTES a g = (Ok m, g') ∧
    inputs m = Some ins ∧
    Z.of_nat (length ins) = sample_length a ∧
    Forall (fun p => ph_shape p = [batch_size a; NB_NOTES]) ins ∧
    targets m = Some tgs ∧
    Z.of_nat (length tgs) = sample_length a ∧
    Forall (fun p => ph_shape p = [batch_size a; NB_NOTES]) tgs.
Proof.
  intros Hvalid Hfree.
  destruct (Model_new_run NB_NOTES a g Hvalid Hfree)
    as (raws & fs & Hrun & _).
  destruct Hvalid as (_ & Hn & _ & _).
  exists (built_model NB_NOTES a g raws fs), (built_graph NB_NOTES a g raws),
    (input_slots NB_NOTES a g), (target_slots NB_NOTES a g).
  split; [exact Hrun|]. split; [reflexivity|].
  split; [rewrite input_slots_length; now apply slots_of_nat|].
  split; [apply fresh_placeholders_shape|].
  split; [reflexivity|].
  split; [rewrite target_slots_length; now apply slots_of_nat|].
  apply fresh_placeholders_shape.
Qed.

(** The target slots do not depend on the mode: the generation-mode model
    holds them too. *)
Lemma generation_keeps_target_slots a g :
  valid_config a ->
  projection_free g ->
  test a = true ->
  ∃ m g' tgs,
    Model_new NB_NOTES a g = (Ok m, g') ∧
    targets m = Some tgs ∧
    Z.of_nat (length tgs) = sample_length a.
Proof.
  intros Hvalid Hfree _.
  destruct (Model_new_run NB_NOTES a g Hvalid Hfree)
    as (raws & fs & Hrun & _).
  destruct Hvalid as (_ & Hn & _ & _).
  exists (built_model NB_NOTES a g raws fs), (built_graph NB_NOTES a g raws),
    (target_slots NB_NOTES a g).
  split; [exact Hrun|]. split; [reflexivity|].
  rewrite target_slots_length. now apply slots_of_nat.
Qed.

(** C4. On a training-mode model and a batch with [sample_length] input
    arrays and [sample_length] target arrays, [step] returns a feed
    dictionary of [2 * sample_length] entries that binds every input slot
    and every target slot to the batch array of its position, and the
    one-element tuple holding the optimizer's minimize operation. *)
Theorem step_training_binds_all_slots a g batch xs ys :
  valid_config a ->
  projection_free g ->
  test a = false ->
  batch_inputs batch = Some xs ->
  batch_targets batch = Some ys ->
  Z.of_nat (length xs) = sample_length a ->
  Z.of_nat (length ys) = sample_length a ->
  ∃ m g' ins tgs loss (fd : gmap placeholder ndarray),
    Model_new NB_NOTES a g = (Ok m, g') ∧
    inputs m = Some ins ∧ targets m = Some tgs ∧
    opt_op m = Some (Minimize (adam (args_learning_rate a)) loss) ∧
    step batch {| self := m; default_graph := g' |}
      = (Ok ([HOperation (Minimize (adam (args_learning_rate a)) loss)], fd),
         {| self := m; default_graph := g' |}) ∧
    Z.of_nat (size fd) = 2 * sample_length a ∧
    (∀ i p, ins !! i = Some p -> fd !! p = xs !! i) ∧
    (∀ i q, tgs !! i = Some q -> fd !! q = ys !! i).
Proof.
  intros Hvalid Hfree Ht Hxs Hys Hlx Hly.
  destruct (Model_new_run NB_NOTES a g Hvalid Hfree)
    as (raws & fs & Hrun & _).
  destruct Hvalid as (_ & Hn & _ & _).
  pose proof (slots_of_nat a Hn) as Hslots.
  destruct (step_training_run NB_NOTES a g raws fs
              (built_graph NB_NOTES a g raws) batch xs ys Ht Hxs Hys)
    as (fd & Hstep & Hsize & Hlin & Hltg); try lia.
  exists (built_model NB_NOTES a g raws fs), (built_graph NB_NOTES a g raws),
    (input_slots NB_NOTES a g), (target_slots NB_NOTES a g),
    (training_loss NB_NOTES a g raws), fd.
  split; [exact Hrun|]. split; [reflexivity|]. split; [reflexivity|].
  split; [cbn; now rewrite Ht|].
  split; [exact Hstep|].
  split; [lia|]. split; assumption.
Qed.

(** C5. On a generation-mode model and a batch whose first input array is
    present, [step] raises nothing and returns a feed dictionary with the
    single entry that binds the first input slot to that array, and the
    one-element tuple holding the list of the [sample_length] outputs. *)
Theorem step_generation_binds_first_slot a g batch x rest :
  valid_config a ->
  projection_free g ->
  test a = true ->
  batch_inputs batch = Some (x :: rest) ->
  ∃ m g' p0 ins outs,
    Model_new NB_NOTES a g = (Ok m, g') ∧
    inputs m = Some (p0 :: ins) ∧
    outputs m = Some outs ∧
    Z.of_nat (length outs) = sample_length a ∧
    step batch {| self := m; default_graph := g' |}
      = (Ok ([HTensors outs], {[ p0 := x ]}),
         {| self := m; default_graph := g' |}) ∧
    size ({[ p0 := x ]} : gmap placeholder ndarray) = 1%nat.
Proof.
  intros Hvalid Hfree Ht Hxs.
  destruct (Model_new_run NB_NOTES a g Hvalid Hfree)
    as (raws & fs & Hrun & Hlen & _).
  destruct Hvalid as (_ & Hn & _ & _).
  pose proof (slots_of_nat a Hn) as Hslots.
  destruct (step_generation_run NB_NOTES a g raws fs
              (built_graph NB_NOTES a g raws) batch x rest Ht
              ltac:(lia) Hxs) as (p0 & Hp0 & Hstep).
  destruct (input_slots NB_NOTES a g) as [|q ins] eqn:Eins; [discriminate|].
  injection Hp0 as ->.
  exists (built_model NB_NOTES a g raws fs), (built_graph NB_NOTES a g raws),
    p0, ins,
    (project_note (projection_W NB_NOTES a g) (projection_b NB_NOTES a g)
       <$> raws).
  split; [exact Hrun|]. split; [cbn; now rewrite Eins|].
  split; [reflexivity|].
  split; [rewrite length_fmap; lia|].
  split; [exact Hstep|]. apply map_size_singleton.
Qed.

(** C6. One weight variable and one bias variable are created, once, and
    nothing else with an identity is allocated besides the slots; every
    output, at every step, is [matmul(X, W) + b] over these two, the
    feedback input of generation mode is made with the same two, and no
    other variable is an operand in any output or in the final state. *)
Theorem projection_is_shared a g :
  valid_config a ->
  projection_free g ->
  ∃ m g' outs final W b,
    Model_new NB_NOTES a g = (Ok m, g') ∧
    outputs m = Some outs ∧ final_state m = Some final ∧
    variables g' = <["note_projection/bias" := b]>
                     (<["note_projection/weights" := W]> (variables g)) ∧
    Z.of_nat (next_uid g') = Z.of_nat (next_uid g) + 2 * sample_length a + 2 ∧
    (∀ t o, outs !! t = Some o -> ∃ X, unproject o = Some (X, W, b)) ∧
    (test a = true ->
     ∀ t o, outs !! S t = Some o ->
       ∃ prev, outs !! t = Some (Add (MatMul prev (Var W)) (Var b)) ∧
               fed_input o
                 = Some (scaled_sigmoid (Add (MatMul prev (Var W)) (Var b)))) ∧
    (∀ o, o ∈ outs -> tensor_variables o ⊆ {[ W; b ]}) ∧
    (∀ st, st ∈ final ->
       tensor_variables (st_c st) ⊆ {[ W; b ]} ∧
       tensor_variables (st_h st) ⊆ {[ W; b ]}).
Proof.
  intros Hvalid Hfree.
  destruct (Model_new_run NB_NOTES a g Hvalid Hfree)
    as (raws & fs & Hrun & Hlen & Hfs & Hsup & Hfsup & Hhead & Hnext).
  destruct Hvalid as (_ & Hn & _ & _).
  pose proof (slots_of_nat a Hn) as Hslots.
  exists (built_model NB_NOTES a g raws fs), (built_graph NB_NOTES a g raws),
    (project_note (projection_W NB_NOTES a g) (projection_b NB_NOTES a g)
       <$> raws),
    fs, (projection_W NB_NOTES a g), (projection_b NB_NOTES a g).
  split; [exact Hrun|]. split; [reflexivity|]. split; [reflexivity|].
  split; [reflexivity|]. split; [cbn; lia|].
  split; [|split; [|split]].
  - intros t o Ho. apply project_note_lookup in Ho as (X & _ & ->).
    exists X. reflexivity.
  - intros Ht t o Ho.
    apply project_note_lookup in Ho as (X & HX & ->).
    destruct (lookup_lt_is_Some_2 raws t) as [prev Hprev].
    { apply lookup_lt_Some in HX. lia. }
    exists prev. split; [now rewrite list_lookup_fmap, Hprev|].
    cbn. rewrite (Hnext _ _ _ Hprev HX). unfold next_input.
    now rewrite Ht.
  - intros o Ho. apply list_elem_of_fmap in Ho as (X & -> & HX).
    rewrite Forall_forall in Hsup. destruct (Hsup X HX) as [_ HV].
    pose proof (reachable_variables_projection a g) as Hsub.
    cbn. repeat apply union_least; first
      [ now transitivity (reachable_variables NB_NOTES a g)
      | apply singleton_subseteq_l; apply elem_of_union; left;
        now apply elem_of_singleton
      | apply singleton_subseteq_l; apply elem_of_union; right;
        now apply elem_of_singleton ].
  - intros st Hst. unfold state_supported in Hfsup.
    rewrite Forall_forall in Hfsup.
    destruct (Hfsup st Hst) as [[_ Hc] [_ Hh]].
    pose proof (reachable_variables_projection a g) as Hsub.
    split; now transitivity (reachable_variables NB_NOTES a g).
Qed.

(** C7. Two valid configurations that differ in the mode flag only give
    models with the same input slots, hence the same input-slot shapes; the
    training-mode model's [opt_op] is the minimize operation of an Adam
    optimizer with the configured learning rate, [beta1 = 0.9],
    [beta2 = 0.999] and [epsilon = 1e-08]; the generation-mode model's
    [opt_op] is [None] and its graph has no loss summary. *)
Theorem mode_flag_selects_optimizer a1 a2 g :
  valid_config a1 ->
  projection_free g ->
  test a1 = false ->
  test a2 = true ->
  batch_size a2 = batch_size a1 ->
  sample_length a2 = sample_length a1 ->
  hidden_size a2 = hidden_size a1 ->
  num_layers a2 = num_layers a1 ->
  args_learning_rate a2 = args_learning_rate a1 ->
  ∃ m1 g1 m2 g2 ins1 ins2 loss,
    Model_new NB_NOTES a1 g = (Ok m1, g1) ∧
    Model_new NB_NOTES a2 g = (Ok m2, g2) ∧
    inputs m1 = Some ins1 ∧ inputs m2 = Some ins2 ∧
    ph_shape <$> ins1 = ph_shape <$> ins2 ∧
    opt_op m1 = Some (Minimize {| learning_rate := args_learning_rate a1;
                                  beta1 := 9 # 10;
                                  beta2 := 999 # 1000;
                                  epsilon := 1 # 100000000 |} loss) ∧
    summaries g1 = summaries g ++ [("training_loss", loss)] ∧
    opt_op m2 = None ∧
    summaries g2 = summaries g.
Proof.
  intros Hvalid Hfree Ht1 Ht2 Hbs Hn Hhs Hnl Hlr.
  assert (valid_config a2) as Hvalid2.
  { unfold valid_config in *. rewrite Hbs, Hn, Hhs, Hnl. exact Hvalid. }
  destruct (Model_new_run NB_NOTES a1 g Hvalid Hfree)
    as (raws1 & fs1 & Hrun1 & _).
  destruct (Model_new_run NB_NOTES a2 g Hvalid2 Hfree)
    as (raws2 & fs2 & Hrun2 & _).
  exists (built_model NB_NOTES a1 g raws1 fs1),
    (built_graph NB_NOTES a1 g raws1),
    (built_model NB_NOTES a2 g raws2 fs2),
    (built_graph NB_NOTES a2 g raws2),
    (input_slots NB_NOTES a1 g), (input_slots NB_NOTES a2 g),
    (training_loss NB_NOTES a1 g raws1).
  split; [exact Hrun1|]. split; [exact Hrun2|].
  split; [reflexivity|]. split; [reflexivity|].
  split; [unfold input_slots, slots; now rewrite Hbs, Hn|].
  cbn. rewrite Ht1, Ht2. repeat split; reflexivity.
Qed.

(** C8, as the code has it. In training mode the loss is
    [sequence_loss] with [sigmoid_cross_entropy_with_logits] as the
    per-step loss; its logits are the outputs of the model, that is the
    projected vectors [matmul(X, W) + b], its targets are the target
    slots, step by step, and every step has an all-ones weight of the
    slots' shape. *)
Theorem loss_is_cross_entropy_of_outputs a g :
  valid_config a ->
  projection_free g ->
  test a = false ->
  ∃ m g' outs tgs opt loss,
    Model_new NB_NOTES a g = (Ok m, g') ∧
    outputs m = Some outs ∧ targets m = Some tgs ∧
    opt_op m = Some (Minimize opt loss) ∧
    loss_logits loss = outs ∧
    loss_targets loss = Placeholder <$> tgs ∧
    loss_weights loss
      = replicate (length tgs) (Ones [batch_size a; NB_NOTES]) ∧
    softmax_loss_function loss = sigmoid_cross_entropy_with_logits ∧
    Z.of_nat (length outs) = sample_length a ∧
    length tgs = length outs ∧
    (∀ t o, outs !! t = Some o -> ∃ X W b, unproject o = Some (X, W, b)).
Proof.
  intros Hvalid Hfree Ht.
  destruct (Model_new_run NB_NOTES a g Hvalid Hfree)
    as (raws & fs & Hrun & Hlen & _).
  destruct Hvalid as (_ & Hn & _ & _).
  pose proof (slots_of_nat a Hn) as Hslots.
  exists (built_model NB_NOTES a g raws fs), (built_graph NB_NOTES a g raws),
    (project_note (projection_W NB_NOTES a g) (projection_b NB_NOTES a g)
       <$> raws),
    (target_slots NB_NOTES a g), (adam (args_learning_rate a)),
    (training_loss NB_NOTES a g raws).
  split; [exact Hrun|]. split; [reflexivity|]. split; [reflexivity|].
  split; [cbn; now rewrite Ht|].
  split; [reflexivity|]. split; [reflexivity|].
  split; [cbn; now rewrite target_slots_length|].
  split; [reflexivity|].
  split; [rewrite length_fmap; lia|].
  split; [now rewrite length_fmap, target_slots_length|].
  intros t o Ho. apply project_note_lookup in Ho as (X & _ & ->).
  exists X, (projection_W NB_NOTES a g), (projection_b NB_NOTES a g).
  reflexivity.
Qed.

(** C9. [step] leaves the object (its input slots, target slots, outputs,
    optimizer operation, final state and configuration) and the graph as
    they were, on every model, every graph and every batch, whether it
    returns or raises. *)
Theorem step_mutates_nothing (batch : Batch) (w : world) :
  (step batch w).2 = w.
Proof. apply readonly_step. Qed.

(** C10. On a generation-mode model [step] looks at the first input array
    of the batch and at nothing else in it: a batch without a [targets]
    attribute succeeds, with the result of any batch that has the same
    first input array. *)
Theorem step_generation_ignores_targets a g x rest rest' tg :
  valid_config a ->
  projection_free g ->
  test a = true ->
  ∃ m g' r,
    Model_new NB_NOTES a g = (Ok m, g') ∧
    step {| batch_inputs := Some (x :: rest); batch_targets := None |}
         {| self := m; default_graph := g' |}
      = (Ok r, {| self := m; default_graph := g' |}) ∧
    step {| batch_inputs := Some (x :: rest'); batch_targets := tg |}
         {| self := m; default_graph := g' |}
      = (Ok r, {| self := m; default_graph := g' |}).
Proof.
  intros Hvalid Hfree Ht.
  destruct (Model_new_run NB_NOTES a g Hvalid Hfree)
    as (raws & fs & Hrun & _).
  destruct Hvalid as (_ & Hn & _ & _).
  assert (0 < slots a)%nat as Hpos by (unfold slots; lia).
  destruct (step_generation_run NB_NOTES a g raws fs
              (built_graph NB_NOTES a g raws)
              {| batch_inputs := Some (x :: rest); batch_targets := None |}
              x rest Ht Hpos eq_refl) as (p0 & Hp0 & Hstep).
  destruct (step_generation_run NB_NOTES a g raws fs
              (built_graph NB_NOTES a g raws)
              {| batch_inputs := Some (x :: rest'); batch_targets := tg |}
              x rest' Ht Hpos eq_refl) as (p0' & Hp0' & Hstep').
  assert (p0' = p0) as -> by congruence.
  eexists _, _, _. split; [exact Hrun|]. split; [exact Hstep|exact Hstep'].
Qed.

End Claims.

(** ** The scenarios of the specification *)

(** Generation, four steps: [step] hands back the four outputs and binds the
    first input slot, the placeholder of identity 0, to the batch's first
    array. *)
Example scenario_generation_step :
  match Model_new 88 (scenario true) empty_graph with
  | (Ok m, g') =>
      match step inputs_only_batch {| self := m; default_graph := g' |} with
      | (Ok ([HTensors outs], fd), _) =>
          length outs = 4%nat ∧
          map_to_list fd
            = [({| ph_uid := 0; ph_requested_name := "placeholder_inputs/input";
                   ph_dtype := float32; ph_shape := [1; 88] |}, zeros_array)]
      | _ => False
      end
  | _ => False
  end.
Proof. vm_compute. split; reflexivity. Qed.

(** Training, four steps: eight bindings and the one minimize operation. *)
Example scenario_training_step :
  match Model_new 88 (scenario false) empty_graph with
  | (Ok m, g') =>
      match step scenario_batch {| self := m; default_graph := g' |} with
      | (Ok ([HOperation (Minimize opt _)], fd), _) =>
          size fd = 8%nat ∧ opt = adam (1 # 1000)
      | _ => False
      end
  | _ => False
  end.
Proof. vm_compute. split; reflexivity. Qed.

(** A training-mode model and a batch without targets: the lookup of
    [batch.targets] fails at bind time. *)
Example scenario_training_without_targets :
  match Model_new 88 (scenario false) empty_graph with
  | (Ok m, g') =>
      (step inputs_only_batch {| self := m; default_graph := g' |}).1
        = Raise AttributeError
  | _ => False
  end.
Proof. vm_compute. reflexivity. Qed.

(** The model of the generation scenario holds target slots, four of them:
    C3 as the specification words it, with target slots in training mode
    only, fails there. *)
Lemma targets_not_in_training_only :
  ∃ m g',
    Model_new 88 (scenario true) empty_graph = (Ok m, g') ∧
    test (args m) = true ∧
    (∃ tgs, targets m = Some tgs ∧ length tgs = 4%nat) ∧
    ¬ targets_in_training_only m.
Proof.
  eexists _, _. split; [vm_compute; reflexivity|].
  split; [reflexivity|].
  split; [eexists; split; reflexivity|].
  intros H. destruct (H eq_refl) as [H'|H']; discriminate H'.
Qed.

(** The loss of the training scenario does not take its logits before the
    projection: C8 as the specification words it fails there. *)
Lemma loss_not_on_preprojection :
  ∃ m g',
    Model_new 88 (scenario false) empty_graph = (Ok m, g') ∧
    ¬ loss_on_preprojection m.
Proof.
  eexists _, _. split; [vm_compute; reflexivity|].
  intros (opt & loss & outs & Hop & Hout & _ & H).
  injection Hop as <- <-. injection Hout as <-.
  destruct (H 0%nat _ eq_refl) as (X & W & b & Hun & Hl).
  injection Hun as <- <- <-. discriminate Hl.
Qed.

(** The theorems above on the scenarios: a model of four steps, one layer of
    eight units, batches of one sequence, in a fresh graph. *)

Lemma generation_feeds_back_prediction_scenario :
  valid_config (scenario true) ∧
  projection_free empty_graph ∧
  test (scenario true) = true ∧
  ∃ m g' ins outs final W b,
    Model_new 88 (scenario true) empty_graph = (Ok m, g') ∧
    inputs m = Some ins ∧ outputs m = Some outs ∧
    final_state m = Some final ∧
    Z.of_nat (length ins) = sample_length (scenario true) ∧
    length outs = length ins ∧
    variables g' !! "note_projection/weights" = Some W ∧
    variables g' !! "note_projection/bias" = Some b ∧
    (∃ p0 o0, ins !! 0%nat = Some p0 ∧ outs !! 0%nat = Some o0 ∧
              fed_input o0 = Some (Placeholder p0)) ∧
    (∀ t o, outs !! S t = Some o ->
       ∃ prev y fed,
         outs !! t = Some y ∧
         y = Add (MatMul prev (Var W)) (Var b) ∧
         fed_input o = Some fed ∧
         fed = Sub (Mul (Constant 2) (Sigmoid y)) (Constant 1) ∧
         ∀ rho r c,
           eval rho fed r c
             = (2 * (1 / (1 + exp (- eval rho y r c))) - 1)%R ∧
           (-1 <= eval rho fed r c <= 1)%R) ∧
    (∀ t p, (0 < t)%nat -> ins !! t = Some p ->
       (∀ o, o ∈ outs -> p ∉ tensor_placeholders o) ∧
       (∀ st, st ∈ final ->
          (p ∉ tensor_placeholders (st_c st)) ∧
          (p ∉ tensor_placeholders (st_h st)))).
Proof.
  split; [unfold valid_config; cbn; lia|].
  split; [split; reflexivity|].
  split; [reflexivity|].
  apply (generation_feeds_back_prediction 88 (scenario true) empty_graph).
  - unfold valid_config; cbn; lia.
  - split; reflexivity.
  - reflexivity.
Defined.

Lemma training_is_teacher_forced_scenario :
  valid_config (scenario false) ∧
  projection_free empty_graph ∧
  test (scenario false) = false ∧
  ∃ m g' ins outs,
    Model_new 88 (scenario false) empty_graph = (Ok m, g') ∧
    inputs m = Some ins ∧ outputs m = Some outs ∧
    Z.of_nat (length ins) = sample_length (scenario false) ∧
    length outs = length ins ∧
    (∀ t p, ins !! t = Some p ->
       ∃ o, outs !! t = Some o ∧ fed_input o = Some (Placeholder p)) ∧
    (∀ o, o ∈ outs ->
       ∃ X W b, unproject o = Some (X, W, b) ∧ tensor_variables X = ∅).
Proof.
  split; [unfold valid_config; cbn; lia|].
  split; [split; reflexivity|].
  split; [reflexivity|].
  apply (training_is_teacher_forced 88 (scenario false) empty_graph).
  - unfold valid_config; cbn; lia.
  - split; reflexivity.
  - reflexivity.
Defined.

Lemma construction_allocates_slots_scenario :
  valid_config (scenario true) ∧
  projection_free empty_graph ∧
  ∃ m g' ins tgs,
    Model_new 88 (scenario true) empty_graph = (Ok m, g') ∧
    inputs m = Some ins ∧
    Z.of_nat (length ins) = sample_length (scenario true) ∧
    Forall (fun p => ph_shape p = [batch_size (scenario true); 88]) ins ∧
    targets m = Some tgs ∧
    Z.of_nat (length tgs) = sample_length (scenario true) ∧
    Forall (fun p => ph_shape p = [batch_size (scenario true); 88]) tgs.
Proof.
  split; [unfold valid_config; cbn; lia|].
  split; [split; reflexivity|].
  apply (construction_allocates_slots 88 (scenario true) empty_graph).
  - unfold valid_config; cbn; lia.
  - split; reflexivity.
Defined.

Lemma step_training_binds_all_slots_scenario :
  valid_config (scenario false) ∧
  projection_free empty_graph ∧
  test (scenario false) = false ∧
  batch_inputs scenario_batch = Some (replicate 4 zeros_array) ∧
  batch_targets scenario_batch = Some (replicate 4 zeros_array) ∧
  Z.of_nat (length (replicate 4 zeros_array)) = sample_length (scenario false) ∧
  ∃ m g' ins tgs loss (fd : gmap placeholder ndarray),
    Model_new 88 (scenario false) empty_graph = (Ok m, g') ∧
    inputs m = Some ins ∧ targets m = Some tgs ∧
    opt_op m
      = Some (Minimize (adam (args_learning_rate (scenario false))) loss) ∧
    step scenario_batch {| self := m; default_graph := g' |}
      = (Ok ([HOperation
                (Minimize (adam (args_learning_rate (scenario false))) loss)],
             fd),
         {| self := m; default_graph := g' |}) ∧
    Z.of_nat (size fd) = 2 * sample_length (scenario false) ∧
    (∀ i p, ins !! i = Some p -> fd !! p = replicate 4 zeros_array !! i) ∧
    (∀ i q, tgs !! i = Some q -> fd !! q = replicate 4 zeros_array !! i).
Proof.
  split; [unfold valid_config; cbn; lia|].
  split; [split; reflexivity|].
  split; [reflexivity|]. split; [reflexivity|]. split; [reflexivity|].
  split; [reflexivity|].
  apply (step_training_binds_all_slots 88 (scenario false) empty_graph
           scenario_batch (replicate 4 zeros_array) (replicate 4 zeros_array)).
  - unfold valid_config; cbn; lia.
  - split; reflexivity.
  - reflexivity.
  - reflexivity.
  - reflexivity.
  - reflexivity.
  - reflexivity.
Defined.

Lemma step_generation_binds_first_slot_scenario :
  valid_config (scenario true) ∧
  projection_free empty_graph ∧
  test (scenario true) = true ∧
  batch_inputs inputs_only_batch = Some [zeros_array] ∧
  ∃ m g' p0 ins outs,
    Model_new 88 (scenario true) empty_graph = (Ok m, g') ∧
    inputs m = Some (p0 :: ins) ∧
    outputs m = Some outs ∧
    Z.of_nat (length outs) = sample_length (scenario true) ∧
    step inputs_only_batch {| self := m; default_graph := g' |}
      = (Ok ([HTensors outs], {[ p0 := zeros_array ]}),
         {| self := m; default_graph := g' |}) ∧
    size ({[ p0 := zeros_array ]} : gmap placeholder ndarray) = 1%nat.
Proof.
  split; [unfold valid_config; cbn; lia|].
  split; [split; reflexivity|].
  split; [reflexivity|]. split; [reflexivity|].
  apply (step_generation_binds_first_slot 88 (scenario true) empty_graph
           inputs_only_batch zeros_array []).
  - unfold valid_config; cbn; lia.
  - split; reflexivity.
  - reflexivity.
  - reflexivity.
Defined.

Lemma projection_is_shared_scenario :
  valid_config (scenario true) ∧
  projection_free empty_graph ∧
  ∃ m g' outs final W b,
    Model_new 88 (scenario true) empty_graph = (Ok m, g') ∧
    outputs m = Some outs ∧ final_state m = Some final ∧
    variables g' = <["note_projection/bias" := b]>
                     (<["note_projection/weights" := W]>
                        (variables empty_graph)) ∧
    Z.of_nat (next_uid g')
      = Z.of_nat (next_uid empty_graph) + 2 * sample_length (scenario true) + 2 ∧
    (∀ t o, outs !! t = Some o -> ∃ X, unproject o = Some (X, W, b)) ∧
    (test (scenario true) = true ->
     ∀ t o, outs !! S t = Some o ->
       ∃ prev, outs !! t = Some (Add (MatMul prev (Var W)) (Var b)) ∧
               fed_input o
                 = Some (scaled_sigmoid (Add (MatMul prev (Var W)) (Var b)))) ∧
    (∀ o, o ∈ outs -> tensor_variables o ⊆ {[ W; b ]}) ∧
    (∀ st, st ∈ final ->
       tensor_variables (st_c st) ⊆ {[ W; b ]} ∧
       tensor_variables (st_h st) ⊆ {[ W; b ]}).
Proof.
  split; [unfold valid_config; cbn; lia|].
  split; [split; reflexivity|].
  apply (projection_is_shared 88 (scenario true) empty_graph).
  - unfold valid_config; cbn; lia.
  - split; reflexivity.
Defined.

Lemma mode_flag_selects_optimizer_scenario :
  valid_config (scenario false) ∧
  projection_free empty_graph ∧
  test (scenario false) = false ∧
  test (scenario true) = true ∧
  ∃ m1 g1 m2 g2 ins1 ins2 loss,
    Model_new 88 (scenario false) empty_graph = (Ok m1, g1) ∧
    Model_new 88 (scenario true) empty_graph = (Ok m2, g2) ∧
    inputs m1 = Some ins1 ∧ inputs m2 = Some ins2 ∧
    ph_shape <$> ins1 = ph_shape <$> ins2 ∧
    opt_op m1
      = Some (Minimize
                {| learning_rate := args_learning_rate (scenario false);
                   beta1 := 9 # 10;
                   beta2 := 999 # 1000;
                   epsilon := 1 # 100000000 |} loss) ∧
    summaries g1 = summaries empty_graph ++ [("training_loss", loss)] ∧
    opt_op m2 = None ∧
    summaries g2 = summaries empty_graph.
Proof.
  split; [unfold valid_config; cbn; lia|].
  split; [split; reflexivity|].
  split; [reflexivity|]. split; [reflexivity|].
  apply (mode_flag_selects_optimizer 88 (scenario false) (scenario true)
           empty_graph).
  - unfold valid_config; cbn; lia.
  - split; reflexivity.
  - reflexivity.
  - reflexivity.
  - reflexivity.
  - reflexivity.
  - reflexivity.
  - reflexivity.
  - reflexivity.
Defined.

Lemma loss_is_cross_entropy_of_outputs_scenario :
  valid_config (scenario false) ∧
  projection_free empty_graph ∧
  test (scenario false) = false ∧
  ∃ m g' outs tgs opt loss,
    Model_new 88 (scenario false) empty_graph = (Ok m, g') ∧
    outputs m = Some outs ∧ targets m = Some tgs ∧
    opt_op m = Some (Minimize opt loss) ∧
    loss_logits loss = outs ∧
    loss_targets loss = Placeholder <$> tgs ∧
    loss_weights loss
      = replicate (length tgs) (Ones [batch_size (scenario false); 88]) ∧
    softmax_loss_function loss = sigmoid_cross_entropy_with_logits ∧
    Z.of_nat (length outs) = sample_length (scenario false) ∧
    length tgs = length outs ∧
    (∀ t o, outs !! t = Some o -> ∃ X W b, unproject o = Some (X, W, b)).
Proof.
  split; [unfold valid_config; cbn; lia|].
  split; [split; reflexivity|].
  split; [reflexivity|].
  apply (loss_is_cross_entropy_of_outputs 88 (scenario false) empty_graph).
  - unfold valid_config; cbn; lia.
  - split; reflexivity.
  - reflexivity.
Defined.

Lemma step_generation_ignores_targets_scenario :
  valid_config (scenario true) ∧
  projection_free empty_graph ∧
  test (scenario true) = true ∧
  ∃ m g' r,
    Model_new 88 (scenario true) empty_graph = (Ok m, g') ∧
    step {| batch_inputs := Some [zeros_array]; batch_targets := None |}
         {| self := m; default_graph := g' |}
      = (Ok r, {| self := m; default_graph := g' |}) ∧
    step {| batch_inputs := Some (replicate 4 zeros_array);
            batch_targets := Some (replicate 4 zeros_array) |}
         {| self := m; default_graph := g' |}
      = (Ok r, {| self := m; default_graph := g' |}).
Proof.
  split; [unfold valid_config; cbn; lia|].
  split; [split; reflexivity|].
  split; [reflexivity|].
  apply (step_generation_ignores_targets 88 (scenario true) empty_graph
           zeros_array [] (replicate 3 zeros_array)
           (Some (replicate 4 zeros_array))).
  - unfold valid_config; cbn; lia.
  - split; reflexivity.
  - reflexivity.
Defined.

(** ** Further properties of the constructor *)

Lemma bind_Raise {St A B} (c : Comp St A) (k : A -> Comp St B) s e s' :
  c s = (Raise e, s') -> bind c k s = (Raise e, s').
Proof. intros H. unfold bind. now rewrite H. Qed.

(** Run [Model(args)] up to the projection: both comprehensions of
    placeholders succeed on every configuration. *)
Ltac build_placeholders NB a g :=
  unfold Model_new, __init__; rewrite bind_modify; cbn [blank default_graph];
  unfold _build_network;
  rewrite bind_self; cbn [self args];
  rewrite (bind_Ok _ _ _ _ _ (list_comp_placeholders _ _ _ _ _));
  rewrite bind_modify, bind_self; norm_world;
  rewrite (bind_Ok _ _ _ _ _ (list_comp_placeholders _ _ _ _ _));
  rewrite bind_modify, bind_self; norm_world;
  rewrite !py_range_length; fold (slots a);
  change ("placeholder_inputs" +:+ "/" +:+ "input")
    with "placeholder_inputs/input";
  change ("placeholder_targets" +:+ "/" +:+ "target")
    with "placeholder_targets/target";
  fold (input_slots NB a g); fold (target_slots NB a g).

(** Run the two [tf.get_variable] calls in a graph whose scope is free. *)
Ltac build_projection HfreeW Hfreeb :=
  (erewrite bind_Ok; [|apply tf_get_variable_run; exact HfreeW]);
  norm_world;
  (erewrite bind_Ok;
     [|apply tf_get_variable_run; norm_world;
       now rewrite lookup_insert_ne by discriminate]);
  norm_world;
  rewrite bind_self; cbn [self args]; rewrite bind_self; cbn [self args].

Section ConstructorEdges.

Variable NB_NOTES : Z.

Lemma rnn_stack_nonempty a : 0 < num_layers a -> cells (rnn_stack a) ≠ [].
Proof.
  intros H. unfold rnn_stack. cbn.
  destruct (Z.to_nat (num_layers a)) eqn:E; [lia | discriminate].
Qed.

(** The constructor succeeds whenever the projection scope is free, the
    stack has a layer and, in training mode, there is a step; the decoder
    call it makes is the one [decoded] names. *)
Lemma Model_new_decoded a g :
  0 < num_layers a ->
  projection_free g ->
  (test a = false -> 0 < sample_length a) ->
  ∃ raws fs,
    decoded NB_NOTES a g raws fs ∧
    length raws = slots a ∧
    Model_new NB_NOTES a g
      = (Ok (built_model NB_NOTES a g raws fs), built_graph NB_NOTES a g raws).
Proof.
  intros Hnl [HfreeW Hfreeb] Hn.
  pose proof (rnn_stack_nonempty a Hnl) as Hcells.
  destruct (rnn_decoder_from_run (rnn_stack a)
              (loop_rnn (projection_W NB_NOTES a g) (projection_b NB_NOTES a g))
              (next_input NB_NOTES a g) (slots a)
              (decoding_world NB_NOTES a g)
              (list_to_set (input_slots NB_NOTES a g))
              (projection_variables NB_NOTES a g) Hcells)
    with (dec := map Placeholder (input_slots NB_NOTES a g)) (i := 0%nat)
         (state := zero_state (rnn_stack a) (batch_size a))
         (prev := @None tensor)
    as (raws & fs & Hrun & Hlen & _).
  { intros p k Hk. now apply (loop_rnn_run NB_NOTES a g). }
  { intros p k Hk Hp. unfold next_input. destruct (test a).
    - apply supported_scaled_sigmoid, supported_project; [| |exact Hp];
        unfold projection_variables; set_solver.
    - unfold input_slots in *.
      rewrite (fresh_placeholders_lookup _ _ _ _ _ Hk). cbn.
      apply supported_placeholder, elem_of_list_to_set.
      apply list_elem_of_lookup. exists k.
      now apply fresh_placeholders_lookup. }
  { cbn. rewrite length_map, input_slots_length. lia. }
  { apply zero_state_length. }
  { apply zero_state_supported. }
  { intros _ d Hd. change (map Placeholder ?l) with (Placeholder <$> l) in Hd.
    rewrite list_lookup_fmap in Hd.
    destruct (input_slots NB_NOTES a g !! 0%nat) as [p|] eqn:Ep; [|discriminate].
    injection Hd as <-. apply supported_placeholder, elem_of_list_to_set.
    apply list_elem_of_lookup. eauto. }
  { discriminate. }
  assert (length raws = slots a) as Hraws.
  { rewrite Hlen, length_map. apply input_slots_length. }
  exists raws, fs. split; [exact Hrun|]. split; [exact Hraws|].
  build_placeholders NB_NOTES a g.
  build_projection HfreeW Hfreeb.
  rewrite (bind_Ok _ _ _ _ _ (MultiRNNCell_new_run _ _ Hcells)).
  rewrite bind_self. cbn [self args]. rewrite bind_self. cbn [self inputs].
  cbn [fmap option_fmap option_map].
  erewrite bind_Ok; [|exact Hrun]. cbv beta iota. unfold decoding_world.
  rewrite !bind_modify. norm_world.
  erewrite bind_Ok; [|now apply (final_output_run _ _ _ _ [])].
  norm_world. rewrite bind_self. cbn [self args].
  destruct (test a) eqn:Ht; cbn [negb].
  - unfold built_model, built_graph. rewrite Ht. reflexivity.
  - specialize (Hn eq_refl).
    rewrite bind_self. cbn [self outputs].
    rewrite bind_self. cbn [self targets].
    rewrite bind_self. cbn [self targets py_len].
    change (bind (lift (Ok ?x)) ?k ?w) with (k x w). cbv beta.
    destruct (target_slots NB_NOTES a g) as [|t0 rest] eqn:Etgs.
    { pose proof (target_slots_length NB_NOTES a g) as Hl. rewrite Etgs in Hl.
      unfold slots in Hl. cbn in Hl. lia. }
    erewrite bind_Ok; [|now eapply weights_run].
    assert (length (t0 :: rest) = slots a) as Hlt.
    { rewrite <- Etgs. apply target_slots_length. }
    assert (ph_shape t0 = [batch_size a; NB_NOTES]) as Hshape.
    { assert (target_slots NB_NOTES a g !! 0%nat = Some t0) as H0
        by now rewrite Etgs.
      apply fresh_placeholders_inv in H0 as [_ ->]. reflexivity. }
    rewrite py_range_length, Nat2Z.id, Hlt, Hshape.
    assert (slots a ≠ 0%nat) as Hpos by (unfold slots; lia).
    cbn [fmap option_fmap option_map].
    erewrite bind_Ok;
      [|apply sequence_loss_run; cbn [app];
        rewrite ?length_map, ?length_fmap, ?length_replicate; congruence].
    erewrite bind_Ok; [|reflexivity].
    rewrite bind_self. unfold modify. norm_world.
    unfold built_model, built_graph, training_loss. rewrite Ht, Etgs.
    reflexivity.
Qed.

(** A taken projection scope makes [tf.get_variable] raise: the
    constructor raises [ValueError], after it has made its placeholders. *)
Lemma Model_new_scope_taken a g :
  ¬ projection_free g ->
  ∃ g', Model_new NB_NOTES a g = (Raise ValueError, g').
Proof.
  intros Htaken.
  destruct (variables g !! "note_projection/weights") as [w|] eqn:EW.
  - eexists.
    build_placeholders NB_NOTES a g.
    erewrite bind_Raise;
      [|unfold tf_get_variable; norm_world;
        change ("note_projection" +:+ "/" +:+ "weights")
          with "note_projection/weights";
        rewrite EW; reflexivity].
    reflexivity.
  - destruct (variables g !! "note_projection/bias") as [w|] eqn:EB.
    2: { exfalso. apply Htaken. split; assumption. }
    eexists.
    build_placeholders NB_NOTES a g.
    erewrite bind_Ok; [|apply tf_get_variable_run; exact EW].
    norm_world.
    erewrite bind_Raise;
      [|unfold tf_get_variable; norm_world;
        change ("note_projection" +:+ "/" +:+ "bias")
          with "note_projection/bias";
        rewrite lookup_insert_ne, EB by discriminate; reflexivity].
    reflexivity.
Qed.

(** X1. A graph holds one model: after a construction has succeeded, every
    further construction in the same graph raises [ValueError], whatever
    its mode, because the variables of the projection exist already. *)
Theorem second_model_in_graph_raises a a' g :
  valid_config a ->
  valid_config a' ->
  projection_free g ->
  ∃ m g1 g2,
    Model_new NB_NOTES a g = (Ok m, g1) ∧
    Model_new NB_NOTES a' g1 = (Raise ValueError, g2).
Proof.
  intros Hvalid Hvalid' Hfree.
  destruct (Model_new_run NB_NOTES a g Hvalid Hfree) as (raws & fs & Hrun & _).
  destruct (Model_new_scope_taken a' (built_graph NB_NOTES a g raws))
    as (g2 & Hfail).
  { intros [HW _]. cbn in HW.
    rewrite lookup_insert_ne, lookup_insert_eq in HW by discriminate.
    discriminate. }
  eauto.
Qed.

(** X2. A configuration without layers is refused: [MultiRNNCell] gets an
    empty list of cells and the constructor raises [ValueError]. *)
Theorem constructor_needs_a_layer a g :
  0 < batch_size a ->
  0 < hidden_size a ->
  projection_free g ->
  num_layers a <= 0 ->
  ∃ g', Model_new NB_NOTES a g = (Raise ValueError, g').
Proof.
  intros _ _ [HfreeW Hfreeb] Hnl.
  eexists.
  build_placeholders NB_NOTES a g.
  build_projection HfreeW Hfreeb.
  replace (Z.to_nat (num_layers a)) with 0%nat by lia.
  reflexivity.
Qed.

Lemma no_slots a g :
  sample_length a <= 0 ->
  input_slots NB_NOTES a g = [] ∧ target_slots NB_NOTES a g = [].
Proof.
  intros Hn. unfold input_slots, target_slots, slots.
  replace (Z.to_nat (sample_length a)) with 0%nat by lia.
  split; reflexivity.
Qed.

(** X3. A training configuration without steps is refused, and not by the
    subscript [self.targets[0]], which is never evaluated: the sequence
    loss gets empty lists and the constructor raises [ValueError]. *)
Theorem training_constructor_needs_a_step a g :
  0 < batch_size a ->
  0 < hidden_size a ->
  0 < num_layers a ->
  projection_free g ->
  test a = false ->
  sample_length a <= 0 ->
  ∃ g', Model_new NB_NOTES a g = (Raise ValueError, g').
Proof.
  intros _ _ Hnl [HfreeW Hfreeb] Ht Hn.
  pose proof (rnn_stack_nonempty a Hnl) as Hcells.
  destruct (no_slots a g Hn) as [Hins Htgs].
  eexists.
  build_placeholders NB_NOTES a g.
  build_projection HfreeW Hfreeb.
  rewrite (bind_Ok _ _ _ _ _ (MultiRNNCell_new_run _ _ Hcells)).
  rewrite bind_self. cbn [self args]. rewrite bind_self. cbn [self inputs].
  rewrite Hins, Htgs. cbn [fmap option_fmap option_map map].
  unfold rnn_decoder. cbn [rnn_decoder_from]. rewrite bind_ret.
  rewrite !bind_modify. norm_world. cbn [final_output]. rewrite bind_ret.
  rewrite bind_self. cbn [self args]. rewrite Ht. cbn [negb].
  rewrite bind_self. cbn [self outputs].
  rewrite bind_self. cbn [self targets].
  rewrite bind_self. cbn [self targets py_len].
  reflexivity.
Qed.

(** X4. A generation configuration without steps is accepted: the
    constructor returns a model with no slot and no output, whose final
    state is the zero state, and [step] on that model raises [IndexError]
    for every batch that has an [inputs] attribute. *)
Theorem generation_without_steps a g batch :
  0 < batch_size a ->
  0 < hidden_size a ->
  0 < num_layers a ->
  projection_free g ->
  test a = true ->
  sample_length a <= 0 ->
  is_Some (batch_inputs batch) ->
  ∃ m g',
    Model_new NB_NOTES a g = (Ok m, g') ∧
    inputs m = Some [] ∧ targets m = Some [] ∧ outputs m = Some [] ∧
    opt_op m = None ∧
    final_state m = Some (zero_state (rnn_stack a) (batch_size a)) ∧
    step batch {| self := m; default_graph := g' |}
      = (Raise IndexError, {| self := m; default_graph := g' |}).
Proof.
  intros _ _ Hnl Hfree Ht Hn [xs Hxs].
  destruct (Model_new_decoded a g Hnl Hfree) as (raws & fs & Hdec & Hlen & Hrun).
  { rewrite Ht. discriminate. }
  destruct (no_slots a g Hn) as [Hins Htgs].
  unfold decoded in Hdec. rewrite Hins in Hdec. cbn in Hdec.
  injection Hdec as <- <-.
  exists (built_model NB_NOTES a g [] (zero_state (rnn_stack a) (batch_size a))),
    (built_graph NB_NOTES a g []).
  split; [exact Hrun|].
  split; [cbn; now rewrite Hins|]. split; [cbn; now rewrite Htgs|].
  split; [reflexivity|]. split; [cbn; now rewrite Ht|].
  split; [reflexivity|].
  unfold step. rewrite bind_self. cbn [self args built_model].
  rewrite Ht. cbn [negb]. rewrite Hxs. cbn [getattr]. rewrite bind_ret.
  destruct xs as [|x xs]; [reflexivity|].
  change (py_index (x :: xs) 0) with (Ok x).
  change (bind (lift (Ok ?v)) ?k ?s) with (k v s). cbv beta.
  rewrite bind_self. cbn [self inputs built_model]. rewrite Hins.
  reflexivity.
Qed.

(** X5. A refused construction is not undone: the placeholders and the two
    variables of the projection were made before the refusal and stay in
    the graph, so a later construction in the same graph is refused as
    well, even from a valid configuration. *)
Theorem refused_construction_occupies_graph a a' g :
  0 < batch_size a ->
  0 < hidden_size a ->
  projection_free g ->
  num_layers a <= 0 ∨ (test a = false ∧ sample_length a <= 0) ->
  valid_config a' ->
  ∃ g1 g2,
    Model_new NB_NOTES a g = (Raise ValueError, g1) ∧
    is_Some (variables g1 !! "note_projection/weights") ∧
    is_Some (variables g1 !! "note_projection/bias") ∧
    Model_new NB_NOTES a' g1 = (Raise ValueError, g2).
Proof.
  intros _ _ [HfreeW Hfreeb] Hcase _.
  assert (∃ g1, Model_new NB_NOTES a g = (Raise ValueError, g1) ∧
                is_Some (variables g1 !! "note_projection/weights") ∧
                is_Some (variables g1 !! "note_projection/bias"))
    as (g1 & Hrun & HW & Hb).
  { destruct (Z_le_gt_dec (num_layers a) 0) as [Hnl|Hnl].
    - eexists. split.
      + build_placeholders NB_NOTES a g.
        build_projection HfreeW Hfreeb.
        replace (Z.to_nat (num_layers a)) with 0%nat by lia.
        reflexivity.
      + cbn. split; eexists.
        * rewrite lookup_insert_ne by discriminate. apply lookup_insert_eq.
        * apply lookup_insert_eq.
    - destruct Hcase as [Hle|[Ht Hn]]; [lia|].
      assert (0 < num_layers a) as Hnl' by lia.
      pose proof (rnn_stack_nonempty a Hnl') as Hcells.
      destruct (no_slots a g Hn) as [Hins Htgs].
      eexists. split.
      + build_placeholders NB_NOTES a g.
        build_projection HfreeW Hfreeb.
        rewrite (bind_Ok _ _ _ _ _ (MultiRNNCell_new_run _ _ Hcells)).
        rewrite bind_self. cbn [self args]. rewrite bind_self.
        cbn [self inputs].
        rewrite Hins, Htgs. cbn [fmap option_fmap option_map map].
        unfold rnn_decoder. cbn [rnn_decoder_from]. rewrite bind_ret.
        rewrite !bind_modify. norm_world. cbn [final_output]. rewrite bind_ret.
        rewrite bind_self. cbn [self args]. rewrite Ht. cbn [negb].
        rewrite bind_self. cbn [self outputs].
        rewrite bind_self. cbn [self targets].
        rewrite bind_self. cbn [self targets py_len].
        reflexivity.
      + cbn. split; eexists.
        * rewrite lookup_insert_ne by discriminate. apply lookup_insert_eq.
        * apply lookup_insert_eq. }
  assert (¬ projection_free g1) as Hocc.
  { intros [HW' _]. rewrite HW' in HW. destruct HW as [? [=]]. }
  destruct (Model_new_scope_taken a' g1 Hocc) as [g2 Hrun2].
  exists g1, g2. repeat split; assumption.
Qed.

End ConstructorEdges.

(** ** Further properties of [step] *)

Lemma py_index_out_of_range {A} (l : list A) (i : nat) :
  (length l ≤ i)%nat -> py_index l (Z.of_nat i) = Raise IndexError.
Proof.
  intros H. unfold py_index.
  destruct (Z.ltb_spec (Z.of_nat i) 0) as [Hneg|_]; [lia|].
  destruct (Z.ltb_spec (Z.of_nat i) (Z.of_nat (length l))) as [Hlt|_]; [lia|].
  now rewrite andb_false_r.
Qed.

Lemma for_ext {St A B} (xs : list A) (body body' : A -> B -> Comp St B) s :
  (∀ x acc, x ∈ xs -> body x acc s = body' x acc s) ->
  (∀ x acc, x ∈ xs -> (body x acc s).2 = s) ->
  ∀ acc, for_ xs acc body s = for_ xs acc body' s.
Proof.
  induction xs as [|x xs IH]; intros Hext Hro acc; [reflexivity|].
  cbn [for_]. unfold bind.
  rewrite <- (Hext x acc) by apply list_elem_of_here.
  pose proof (Hro x acc ltac:(apply list_elem_of_here)) as Hs.
  destruct (body x acc s) as [[acc'|e] s']; cbn in Hs; subst s'; [|reflexivity].
  apply IH; intros; [apply Hext | apply Hro]; now apply list_elem_of_further.
Qed.

Section StepEdges.

Variable NB_NOTES : Z.

(** X6. Mode misuse: on a training-mode model a batch that has input arrays
    but no [targets] attribute makes [step] raise [AttributeError]. *)
Theorem step_training_without_targets a g batch x rest :
  valid_config a ->
  projection_free g ->
  test a = false ->
  batch_inputs batch = Some (x :: rest) ->
  batch_targets batch = None ->
  ∃ m g',
    Model_new NB_NOTES a g = (Ok m, g') ∧
    step batch {| self := m; default_graph := g' |}
      = (Raise AttributeError, {| self := m; default_graph := g' |}).
Proof.
  intros Hvalid Hfree Ht Hxs Hys.
  destruct (Model_new_run NB_NOTES a g Hvalid Hfree) as (raws & fs & Hrun & _).
  destruct Hvalid as (_ & Hn & _ & _).
  exists (built_model NB_NOTES a g raws fs), (built_graph NB_NOTES a g raws).
  split; [exact Hrun|].
  destruct (lookup_lt_is_Some_2 (input_slots NB_NOTES a g) 0) as [p0 Hp0].
  { rewrite input_slots_length. unfold slots. lia. }
  pose proof (py_index_lookup _ 0%nat _ Hp0) as Hidx.
  change (Z.of_nat 0) with 0 in Hidx.
  unfold step. rewrite bind_self. cbn [self args built_model].
  rewrite Ht. cbn [negb]. rewrite bind_self. cbn [self args built_model].
  unfold py_range.
  destruct (Z.to_nat (sample_length a)) as [|n] eqn:E; [lia|].
  cbn [seq fmap list_fmap for_]. change (Z.of_nat 0) with 0.
  erewrite bind_Raise; [reflexivity|].
  erewrite bind_Raise; [reflexivity|].
  unfold feed_placeholders. rewrite Hxs, Hys. cbn [getattr]. rewrite bind_ret.
  change (py_index (x :: rest) 0) with (Ok x).
  change (bind (lift (Ok ?v)) ?k ?s) with (k v s). cbv beta.
  rewrite bind_self. cbn [self inputs built_model py_subscript].
  rewrite Hidx. reflexivity.
Qed.

(** X7. In either mode a batch without an [inputs] attribute makes [step]
    raise [AttributeError], and a batch whose [inputs] is empty makes it
    raise [IndexError], whatever its targets. *)
Theorem step_without_input_arrays a g batch :
  valid_config a ->
  projection_free g ->
  batch_inputs batch = None ∨ batch_inputs batch = Some [] ->
  ∃ m g',
    Model_new NB_NOTES a g = (Ok m, g') ∧
    step batch {| self := m; default_graph := g' |}
      = (Raise match batch_inputs batch with
               | None => AttributeError
               | Some _ => IndexError
               end,
         {| self := m; default_graph := g' |}).
Proof.
  intros Hvalid Hfree Hxs.
  destruct (Model_new_run NB_NOTES a g Hvalid Hfree) as (raws & fs & Hrun & _).
  destruct Hvalid as (_ & Hn & _ & _).
  exists (built_model NB_NOTES a g raws fs), (built_graph NB_NOTES a g raws).
  split; [exact Hrun|].
  unfold step. rewrite bind_self. cbn [self args built_model].
  destruct (test a) eqn:Ht; cbn [negb].
  - destruct Hxs as [-> | ->]; reflexivity.
  - rewrite bind_self. cbn [self args built_model]. unfold py_range.
    destruct (Z.to_nat (sample_length a)) as [|n] eqn:E; [lia|].
    cbn [seq fmap list_fmap for_].
    erewrite bind_Raise; [reflexivity|].
    erewrite bind_Raise; [reflexivity|].
    unfold feed_placeholders.
    destruct Hxs as [-> | ->]; reflexivity.
Qed.

(** X8. On a training-mode model a batch with fewer input arrays or fewer
    target arrays than [sample_length] makes [step] raise [IndexError]:
    the length of a batch is checked by the subscripts, at bind time. *)
Theorem step_training_short_batch a g batch xs ys :
  valid_config a ->
  projection_free g ->
  test a = false ->
  batch_inputs batch = Some xs ->
  batch_targets batch = Some ys ->
  Z.of_nat (length xs) < sample_length a
    ∨ Z.of_nat (length ys) < sample_length a ->
  ∃ m g',
    Model_new NB_NOTES a g = (Ok m, g') ∧
    step batch {| self := m; default_graph := g' |}
      = (Raise IndexError, {| self := m; default_graph := g' |}).
Proof.
  intros Hvalid Hfree Ht Hxs Hys Hshort.
  destruct (Model_new_run NB_NOTES a g Hvalid Hfree) as (raws & fs & Hrun & _).
  destruct Hvalid as (_ & Hn & _ & _).
  exists (built_model NB_NOTES a g raws fs), (built_graph NB_NOTES a g raws).
  split; [exact Hrun|].
  pose proof (input_slots_length NB_NOTES a g) as Hli.
  pose proof (target_slots_length NB_NOTES a g) as Hlt.
  set (k := Nat.min (length xs) (length ys)).
  assert (k < slots a)%nat as Hk by (unfold slots; lia).
  destruct (feed_loop_run
              (built_world NB_NOTES a g raws fs (built_graph NB_NOTES a g raws))
              batch (input_slots NB_NOTES a g) (target_slots NB_NOTES a g)
              xs ys eq_refl eq_refl Hxs Hys (slots_distinct NB_NOTES a g) k)
    as (fd & Hloop & _); try lia.
  destruct (lookup_lt_is_Some_2 (input_slots NB_NOTES a g) k ltac:(lia))
    as [p Hp].
  assert (feed_placeholders batch (Z.of_nat k) fd
            (built_world NB_NOTES a g raws fs (built_graph NB_NOTES a g raws))
          = (Raise IndexError,
             built_world NB_NOTES a g raws fs (built_graph NB_NOTES a g raws)))
    as Hfail.
  { unfold feed_placeholders. rewrite Hxs, Hys. cbn [getattr].
    rewrite bind_ret.
    destruct (decide (length xs ≤ k)%nat) as [Hle|Hgt].
    - now rewrite (py_index_out_of_range _ _ Hle).
    - destruct (lookup_lt_is_Some_2 xs k ltac:(lia)) as [x Hx].
      rewrite (py_index_lookup _ _ _ Hx).
      change (bind (lift (Ok ?v)) ?c ?s) with (c v s). cbv beta.
      rewrite bind_self. cbn [built_world self inputs built_model py_subscript].
      rewrite (py_index_lookup _ _ _ Hp).
      change (bind (lift (Ok ?v)) ?c ?s) with (c v s). cbv beta.
      rewrite bind_ret.
      now rewrite (py_index_out_of_range ys k ltac:(lia)). }
  unfold step. rewrite bind_self. cbn [self args built_model].
  rewrite Ht. cbn [negb]. rewrite bind_self. cbn [self args built_model].
  unfold py_range. fold (slots a).
  replace (slots a) with (k + S (slots a - S k))%nat by lia.
  rewrite seq_app, fmap_app. cbn [seq fmap list_fmap Nat.add].
  erewrite bind_Raise; [reflexivity|].
  rewrite for_app. erewrite bind_Ok; [|exact Hloop].
  cbn [for_]. erewrite bind_Raise; [reflexivity|exact Hfail].
Qed.

Lemma py_index_take {A} (l : list A) (n j : nat) :
  (j < n)%nat -> (n ≤ length l)%nat ->
  py_index (take n l) (Z.of_nat j) = py_index l (Z.of_nat j).
Proof.
  intros Hj Hn.
  destruct (lookup_lt_is_Some_2 l j ltac:(lia)) as [x Hx].
  rewrite (py_index_lookup l j x Hx).
  apply py_index_lookup. now rewrite lookup_take_lt.
Qed.

(** X9. On a training-mode model [step] reads the first [sample_length]
    arrays of each sequence of the batch and nothing after them: a longer
    batch gives the result of the batch cut to that length, with its
    [2 * sample_length] bindings. *)
Theorem step_training_reads_prefix a g batch xs ys :
  valid_config a ->
  projection_free g ->
  test a = false ->
  batch_inputs batch = Some xs ->
  batch_targets batch = Some ys ->
  sample_length a <= Z.of_nat (length xs) ->
  sample_length a <= Z.of_nat (length ys) ->
  ∃ m g' ops (fd : gmap placeholder ndarray),
    Model_new NB_NOTES a g = (Ok m, g') ∧
    step batch {| self := m; default_graph := g' |}
      = (Ok (ops, fd), {| self := m; default_graph := g' |}) ∧
    step (truncate_batch (Z.to_nat (sample_length a)) batch)
         {| self := m; default_graph := g' |}
      = (Ok (ops, fd), {| self := m; default_graph := g' |}) ∧
    Z.of_nat (size fd) = 2 * sample_length a.
Proof.
  intros Hvalid Hfree Ht Hxs Hys Hlx Hly.
  destruct (Model_new_run NB_NOTES a g Hvalid Hfree) as (raws & fs & Hrun & _).
  destruct Hvalid as (_ & Hn & _ & _).
  pose proof (slots_of_nat a Hn) as Hslots.
  set (w := built_world NB_NOTES a g raws fs (built_graph NB_NOTES a g raws)).
  destruct (step_training_run NB_NOTES a g raws fs
              (built_graph NB_NOTES a g raws)
              (truncate_batch (slots a) batch)
              (take (slots a) xs) (take (slots a) ys) Ht)
    as (fd & Hstep & Hsize & _).
  { cbn. now rewrite Hxs. }
  { cbn. now rewrite Hys. }
  { rewrite length_take. lia. }
  { rewrite length_take. lia. }
  exists (built_model NB_NOTES a g raws fs), (built_graph NB_NOTES a g raws),
    [HOperation (Minimize (adam (args_learning_rate a))
                          (training_loss NB_NOTES a g raws))], fd.
  split; [exact Hrun|]. split; [|split; [exact Hstep | lia]].
  transitivity (step (truncate_batch (slots a) batch) w); [|exact Hstep].
  change {| self := built_model NB_NOTES a g raws fs;
            default_graph := built_graph NB_NOTES a g raws |} with w.
  unfold step. rewrite !bind_self.
  replace (test (args (self w))) with false by (symmetry; exact Ht).
  cbn [negb]. rewrite !bind_self.
  change (sample_length (args (self w))) with (sample_length a).
  unfold bind at 1 3.
  rewrite (for_ext _ (feed_placeholders batch)
             (feed_placeholders (truncate_batch (slots a) batch)) w);
    [reflexivity| |].
  - intros i acc Hi. unfold py_range in Hi.
    apply list_elem_of_fmap in Hi as (j & -> & Hj).
    apply elem_of_seq in Hj. fold (slots a) in Hj.
    unfold feed_placeholders, truncate_batch.
    cbn [batch_inputs batch_targets]. rewrite Hxs, Hys.
    cbn [fmap option_fmap option_map getattr].
    unfold bind, lift, ret, self_. cbv beta iota.
    rewrite !py_index_take by lia. reflexivity.
  - intros i acc _. apply readonly_feed_placeholders.
Qed.

End StepEdges.

(** ** Invariants of the decoder *)

(** One pass through the layers, once more: the shape of its output, the
    placeholders its results depend on, and the place of its output in the
    new state. *)
Lemma MultiRNNCell_layers_facts {St} (cs : list BasicLSTMCell) :
  ∀ (i : nat) (inp : tensor) (state : rnn_state) (s : St),
    (i + length cs ≤ length state)%nat ->
    ∃ out new,
      MultiRNNCell_layers i cs inp state s = (Ok (out, new), s) ∧
      (∀ b0 r hs, get_shape inp = b0 :: r ->
                  Forall (fun c => num_units c = hs) cs -> cs ≠ [] ->
                  get_shape out = [b0; hs]) ∧
      (∀ D, Forall (fun st => tensor_placeholders (st_c st) = D ∧
                              tensor_placeholders (st_h st) = D) state ->
            (cs ≠ [] ->
             tensor_placeholders out = tensor_placeholders inp ∪ D) ∧
            Forall (fun st =>
                      tensor_placeholders (st_c st)
                        = tensor_placeholders inp ∪ D ∧
                      tensor_placeholders (st_h st)
                        = tensor_placeholders inp ∪ D) new) ∧
      (cs ≠ [] -> ∃ top, last new = Some top ∧ st_h top = out).
Proof.
  induction cs as [|cell rest IH]; intros i inp state s Hlen.
  - exists inp, []. split; [reflexivity|].
    split; [intros; congruence|]. split; [|congruence].
    intros D _. split; [congruence | constructor].
  - cbn [length] in Hlen.
    destruct (lookup_lt_is_Some_2 state i ltac:(lia)) as [cur Hcur].
    set (h' := LSTMCellH i (num_units cell) inp (st_c cur) (st_h cur)).
    set (c' := LSTMCellC i (num_units cell) inp (st_c cur) (st_h cur)).
    destruct (IH (S i) h' state s ltac:(lia))
      as (out & new & Hrun & Hshape & Hdeps & Htop).
    exists out, ({| st_c := c'; st_h := h' |} :: new).
    split; [|split; [|split]].
    + cbn [MultiRNNCell_layers].
      rewrite (bind_Ok _ _ _ cur s) by
        (unfold lift; now rewrite (py_index_lookup _ _ _ Hcur)).
      cbn [BasicLSTMCell_call]. fold h' c'.
      now rewrite (bind_Ok _ _ _ _ _ Hrun).
    + intros b0 r hs Hinp Hunits _.
      apply Forall_cons in Hunits as [Hcell Hrest].
      assert (get_shape h' = [b0; hs]) as Hh'.
      { subst h'. cbn. now rewrite Hinp, Hcell. }
      destruct rest as [|cell' rest'].
      * cbn in Hrun. injection Hrun as <- _. exact Hh'.
      * apply (Hshape b0 [hs] hs Hh' Hrest). discriminate.
    + intros D HD.
      assert (tensor_placeholders (st_c cur) = D ∧
              tensor_placeholders (st_h cur) = D) as [Hc Hh].
      { rewrite Forall_lookup in HD. exact (HD _ _ Hcur). }
      assert (tensor_placeholders h' = tensor_placeholders inp ∪ D) as Hh'.
      { subst h'. cbn. rewrite Hc, Hh.
        now rewrite <- (assoc_L (∪)), (idemp_L (∪) D). }
      assert (tensor_placeholders c' = tensor_placeholders inp ∪ D) as Hc'.
      { subst c'. cbn. rewrite Hc, Hh.
        now rewrite <- (assoc_L (∪)), (idemp_L (∪) D). }
      destruct (Hdeps D HD) as [Hout Hnew].
      assert (tensor_placeholders h' ∪ D = tensor_placeholders inp ∪ D) as Hagain.
      { rewrite Hh'. now rewrite <- (assoc_L (∪)), (idemp_L (∪) D). }
      rewrite Hagain in Hout, Hnew.
      split.
      * intros _. destruct rest as [|cell' rest'].
        -- cbn in Hrun. injection Hrun as <- _. exact Hh'.
        -- apply Hout. discriminate.
      * constructor; [split; assumption | exact Hnew].
    + intros _. destruct rest as [|cell' rest'].
      * cbn in Hrun. injection Hrun as <- <-.
        exists {| st_c := c'; st_h := h' |}. split; reflexivity.
      * destruct (Htop ltac:(discriminate)) as (top & Hlast & Hh).
        exists top. split; [|exact Hh].
        destruct new as [|n0 new']; [discriminate|]. exact Hlast.
Qed.

(** The decoder keeps every invariant that its loop function and one call
    of the stack keep: [In k] for the input fed at position [k], [Out k]
    for the output of position [k], [Inv k prev state] for the previous
    output and the state before position [k]. *)
Lemma rnn_decoder_from_invariant {St} (cell : MultiRNNCell)
    (f : tensor -> Z -> Comp St tensor) (F : tensor -> nat -> tensor)
    (N : nat) (s : St)
    (In Out : nat -> tensor -> Prop)
    (Inv : nat -> option tensor -> rnn_state -> Prop) :
  cells cell ≠ [] ->
  (∀ p k, (k < N)%nat -> f p (Z.of_nat k) s = (Ok (F p k), s)) ->
  (∀ p k st, (k < N)%nat -> Inv k (Some p) st -> In k (F p k)) ->
  (∀ k prev inp st out st',
     (k < N)%nat -> length st = length (cells cell) ->
     Inv k prev st -> In k inp ->
     MultiRNNCell_call cell inp st s = (Ok (out, st'), s) ->
     Out k out ∧ Inv (S k) (Some out) st') ->
  ∀ (dec : list tensor) (i : nat) (state : rnn_state) (prev : option tensor),
    (i + length dec ≤ N)%nat ->
    length state = length (cells cell) ->
    Inv i prev state ->
    (prev = None -> ∀ d, dec !! 0%nat = Some d -> In i d) ->
    ∃ outs final,
      rnn_decoder_from (Z.of_nat i) dec state cell (Some f) prev s
        = (Ok (outs, final), s) ∧
      (∀ t o, outs !! t = Some o ->
         ∃ inp, stack_input o = Some inp ∧
                In (i + t)%nat inp ∧ Out (i + t)%nat o) ∧
      Inv (i + length dec)%nat (from_option Some prev (last outs)) final.
Proof.
  intros Hne Hf Hloop Hcell.
  induction dec as [|inp rest IH]; intros i state prev Hi Hlen Hinv Hdec.
  - exists [], state. cbn. split; [reflexivity|].
    split; [intros; discriminate|]. now rewrite Nat.add_0_r.
  - cbn [length] in Hi.
    set (inp' := match prev with Some p => F p i | None => inp end).
    assert (match prev with
            | Some p => f p (Z.of_nat i)
            | None => ret inp
            end s = (Ok inp', s)) as Hinp.
    { subst inp'. destruct prev as [p|]; [apply Hf; lia | reflexivity]. }
    assert (In i inp') as Hin.
    { subst inp'. destruct prev as [p|].
      - apply (Hloop p i state); [lia | exact Hinv].
      - now apply Hdec. }
    destruct (MultiRNNCell_call_run cell inp' state s Hne Hlen)
      as (out & new & Hcall & Hnew & Hstack & _).
    destruct (Hcell i prev inp' state out new ltac:(lia) Hlen Hinv Hin Hcall)
      as [Hout Hinv'].
    destruct (IH (S i) new (Some out) ltac:(lia) ltac:(congruence) Hinv'
                ltac:(discriminate))
      as (outs & final & Hrun & Hall & Hfinal).
    exists (out :: outs), final. split; [|split].
    + cbn [rnn_decoder_from].
      rewrite (bind_Ok _ _ _ _ _ Hinp).
      rewrite (bind_Ok _ _ _ _ _ Hcall).
      replace (Z.of_nat i + 1) with (Z.of_nat (S i)) by lia.
      now rewrite (bind_Ok _ _ _ _ _ Hrun).
    + intros [|t] o Ho; cbn in Ho.
      * injection Ho as <-. exists inp'. rewrite Nat.add_0_r. auto.
      * destruct (Hall t o Ho) as (x & Hx & Hxin & Hxout).
        exists x. replace (i + S t)%nat with (S i + t)%nat by lia. auto.
    + cbn [length].
      replace (i + S (length rest))%nat with (S i + length rest)%nat by lia.
      destruct outs as [|o outs']; [exact Hfinal|].
      change (last (out :: o :: outs')) with (last (o :: outs')).
      destruct (last (o :: outs')) as [z|] eqn:Elast; [exact Hfinal|].
      apply last_None in Elast. discriminate.
Qed.

Lemma MultiRNNCell_call_facts {St} (cell : MultiRNNCell) (inp : tensor)
    (st : rnn_state) (out : tensor) (st' : rnn_state) (s : St) :
  cells cell ≠ [] ->
  length st = length (cells cell) ->
  MultiRNNCell_call cell inp st s = (Ok (out, st'), s) ->
  length st' = length st ∧
  (∀ b0 r hs, get_shape inp = b0 :: r ->
              Forall (fun c => num_units c = hs) (cells cell) ->
              get_shape out = [b0; hs]) ∧
  (∀ D, Forall (fun t => tensor_placeholders (st_c t) = D ∧
                         tensor_placeholders (st_h t) = D) st ->
        tensor_placeholders out = tensor_placeholders inp ∪ D ∧
        Forall (fun t =>
                  tensor_placeholders (st_c t) = tensor_placeholders inp ∪ D ∧
                  tensor_placeholders (st_h t) = tensor_placeholders inp ∪ D)
               st') ∧
  (∃ top, last st' = Some top ∧ st_h top = out).
Proof.
  intros Hne Hlen Hcall.
  destruct (MultiRNNCell_call_run cell inp st s Hne Hlen)
    as (out1 & new1 & Hrun1 & Hlen1 & _).
  rewrite Hrun1 in Hcall. injection Hcall as <- <-.
  destruct (MultiRNNCell_layers_facts (cells cell) 0 inp st s ltac:(lia))
    as (out2 & new2 & Hrun2 & Hshape & Hdeps & Htop).
  unfold MultiRNNCell_call in Hrun1. rewrite Hrun2 in Hrun1.
  injection Hrun1 as <- <-.
  split; [exact Hlen1|]. split; [|split].
  - intros b0 r hs Hinp Hunits. now apply (Hshape b0 r hs).
  - intros D HD. destruct (Hdeps D HD) as [Hout Hnew]. split; auto.
  - now apply Htop.
Qed.

Section GraphFacts.

Variable NB_NOTES : Z.

(** An invariant of the decoder holds of the recurrent outputs and of the
    final state of a construction. *)
Lemma decoded_invariant a g raws fs
    (In Out : nat -> tensor -> Prop)
    (Inv : nat -> option tensor -> rnn_state -> Prop) :
  0 < num_layers a ->
  decoded NB_NOTES a g raws fs ->
  (∀ p k st, (k < slots a)%nat -> Inv k (Some p) st ->
             In k (next_input NB_NOTES a g p k)) ->
  (∀ k prev inp st out st',
     (k < slots a)%nat -> length st = length (cells (rnn_stack a)) ->
     Inv k prev st -> In k inp ->
     MultiRNNCell_call (rnn_stack a) inp st (decoding_world NB_NOTES a g)
       = (Ok (out, st'), decoding_world NB_NOTES a g) ->
     Out k out ∧ Inv (S k) (Some out) st') ->
  Inv 0%nat None (zero_state (rnn_stack a) (batch_size a)) ->
  (∀ p, input_slots NB_NOTES a g !! 0%nat = Some p -> In 0%nat (Placeholder p)) ->
  (∀ t o, raws !! t = Some o ->
     ∃ inp, stack_input o = Some inp ∧ In t inp ∧ Out t o) ∧
  Inv (slots a) (last raws) fs.
Proof.
  intros Hnl Hdec Hloop Hcell Hinit Hfirst.
  destruct (rnn_decoder_from_invariant (rnn_stack a)
              (loop_rnn (projection_W NB_NOTES a g) (projection_b NB_NOTES a g))
              (next_input NB_NOTES a g) (slots a)
              (decoding_world NB_NOTES a g) In Out Inv
              (rnn_stack_nonempty a Hnl))
    with (dec := map Placeholder (input_slots NB_NOTES a g)) (i := 0%nat)
         (state := zero_state (rnn_stack a) (batch_size a))
         (prev := @None tensor)
    as (outs & final & Hrun & Hall & Hfinal).
  { intros p k Hk. now apply (loop_rnn_run NB_NOTES a g). }
  { exact Hloop. }
  { exact Hcell. }
  { cbn. rewrite length_map, input_slots_length. lia. }
  { apply zero_state_length. }
  { exact Hinit. }
  { intros _ d Hd. change (map Placeholder ?l) with (Placeholder <$> l) in Hd.
    rewrite list_lookup_fmap in Hd.
    destruct (input_slots NB_NOTES a g !! 0%nat) as [p|] eqn:Ep; [|discriminate].
    injection Hd as <-. now apply Hfirst. }
  unfold decoded, rnn_decoder in Hdec. change (Z.of_nat 0) with 0 in Hrun.
  rewrite Hrun in Hdec. injection Hdec as <- <-.
  split; [exact Hall|].
  cbn in Hfinal. rewrite length_map, input_slots_length in Hfinal.
  destruct (last outs); exact Hfinal.
Qed.

Lemma slots_read_step a g (k : nat) p :
  input_slots NB_NOTES a g !! k = Some p ->
  (test a = true -> k = 0%nat) ->
  {[ p ]} ∪ slots_read NB_NOTES a g k = slots_read NB_NOTES a g (S k).
Proof.
  intros Hp Hk. unfold slots_read, slots_before.
  destruct (test a).
  - rewrite (Hk eq_refl) in *. cbn [Nat.min].
    rewrite (take_S_r _ _ _ Hp), take_0. cbn.
    now rewrite (comm_L (∪)).
  - rewrite (take_S_r _ _ _ Hp), list_to_set_app_L. cbn.
    rewrite (right_id_L ∅ (∪)). apply (comm_L (∪)).
Qed.

Lemma slots_read_fed a g (k : nat) :
  test a = true -> (0 < k)%nat ->
  slots_read NB_NOTES a g k = slots_read NB_NOTES a g (S k).
Proof.
  intros Ht Hk. unfold slots_read. rewrite Ht.
  now replace (Nat.min k 1) with (Nat.min (S k) 1) by lia.
Qed.

Lemma project_note_placeholders W b X :
  tensor_placeholders (project_note W b X) = tensor_placeholders X.
Proof. cbn. now rewrite !(right_id_L ∅ (∪)). Qed.

Lemma scaled_sigmoid_placeholders X :
  tensor_placeholders (scaled_sigmoid X) = tensor_placeholders X.
Proof. cbn. now rewrite (left_id_L ∅ (∪)), (right_id_L ∅ (∪)). Qed.

(** X10. What each output depends on: in training mode the output of step
    [t] is computed from the input slots of the steps [0 .. t], all of them
    and no other placeholder; in generation mode every output is computed
    from the first input slot alone. *)
Theorem output_dependencies a g :
  valid_config a ->
  projection_free g ->
  ∃ m g' ins outs,
    Model_new NB_NOTES a g = (Ok m, g') ∧
    inputs m = Some ins ∧ outputs m = Some outs ∧
    ∀ t o, outs !! t = Some o ->
      tensor_placeholders o
        = list_to_set (take (if test a then 1%nat else S t) ins).
Proof.
  intros (_ & Hn & _ & Hnl) Hfree.
  destruct (Model_new_decoded NB_NOTES a g Hnl Hfree ltac:(auto))
    as (raws & fs & Hdec & Hlen & Hrun).
  set (D := slots_read NB_NOTES a g).
  destruct (decoded_invariant a g raws fs
              (fun k inp => tensor_placeholders inp ∪ D k = D (S k))
              (fun k out => tensor_placeholders out = D (S k))
              (fun k prev st =>
                 Forall (fun t => tensor_placeholders (st_c t) = D k ∧
                                  tensor_placeholders (st_h t) = D k) st ∧
                 ∀ p, prev = Some p ->
                      (0 < k)%nat ∧ tensor_placeholders p = D k)
              Hnl Hdec) as [Hall _].
  - intros p k st Hk [_ Hprev]. destruct (Hprev p eq_refl) as [Hpos Hp].
    unfold next_input. destruct (test a) eqn:Ht.
    + rewrite scaled_sigmoid_placeholders, project_note_placeholders, Hp.
      rewrite (idemp_L (∪)). now apply slots_read_fed.
    + destruct (lookup_lt_is_Some_2 (input_slots NB_NOTES a g) k) as [q Hq].
      { now rewrite input_slots_length. }
      rewrite Hq. cbn. apply slots_read_step; [exact Hq | congruence].
  - intros k prev inp st out st' Hk Hlst [Hst _] Hin Hcall.
    destruct (MultiRNNCell_call_facts _ _ _ _ _ _ (rnn_stack_nonempty a Hnl)
                Hlst Hcall) as (_ & _ & Hdeps & _).
    destruct (Hdeps (D k) Hst) as [Hout Hnew].
    rewrite Hin in Hout, Hnew.
    split; [exact Hout|]. split; [exact Hnew|].
    intros p [= <-]. split; [lia | exact Hout].
  - split; [|discriminate].
    unfold zero_state. apply Forall_fmap, Forall_true. intros c. cbn.
    subst D. unfold slots_read, slots_before.
    destruct (test a); cbn [Nat.min]; rewrite take_0; split; reflexivity.
  - intros p Hp. cbn. apply slots_read_step; [exact Hp | reflexivity].
  - exists (built_model NB_NOTES a g raws fs), (built_graph NB_NOTES a g raws),
      (input_slots NB_NOTES a g),
      (project_note (projection_W NB_NOTES a g) (projection_b NB_NOTES a g)
         <$> raws).
    split; [exact Hrun|]. split; [reflexivity|]. split; [reflexivity|].
    intros t o Ho. apply project_note_lookup in Ho as (X & HX & ->).
    destruct (Hall t X HX) as (_ & _ & _ & HD).
    rewrite project_note_placeholders, HD.
    subst D. unfold slots_read, slots_before.
    destruct (test a); [|reflexivity].
    now replace (Nat.min (S t) 1) with 1%nat by lia.
Qed.

(** X11. No target slot is read by an output or by the final state, in
    either mode: the targets only enter the loss. *)
Theorem outputs_ignore_target_slots a g :
  valid_config a ->
  projection_free g ->
  ∃ m g' tgs outs final,
    Model_new NB_NOTES a g = (Ok m, g') ∧
    targets m = Some tgs ∧ outputs m = Some outs ∧
    final_state m = Some final ∧
    ∀ q, q ∈ tgs ->
      (∀ o, o ∈ outs -> q ∉ tensor_placeholders o) ∧
      (∀ st, st ∈ final ->
         (q ∉ tensor_placeholders (st_c st)) ∧
         (q ∉ tensor_placeholders (st_h st))).
Proof.
  intros Hvalid Hfree.
  destruct (Model_new_run NB_NOTES a g Hvalid Hfree)
    as (raws & fs & Hrun & _ & _ & Hsup & Hfsup & _).
  exists (built_model NB_NOTES a g raws fs), (built_graph NB_NOTES a g raws),
    (target_slots NB_NOTES a g),
    (project_note (projection_W NB_NOTES a g) (projection_b NB_NOTES a g)
       <$> raws), fs.
  split; [exact Hrun|]. split; [reflexivity|]. split; [reflexivity|].
  split; [reflexivity|].
  intros q Hq.
  assert (q ∉ reachable_slots NB_NOTES a g) as Hnot.
  { pose proof (slots_distinct NB_NOTES a g) as Hnd.
    apply NoDup_app in Hnd as (_ & Hcross & _).
    intros Hin. unfold reachable_slots in Hin.
    assert (q ∈ input_slots NB_NOTES a g) as Hq'.
    { destruct (test a); apply elem_of_list_to_set in Hin; [|exact Hin].
      apply elem_of_take in Hin as (i & Hi & _).
      eapply list_elem_of_lookup_2; exact Hi. }
    exact (Hcross q Hq' Hq). }
  split.
  - intros o Ho. apply list_elem_of_fmap in Ho as (X & -> & HX).
    rewrite Forall_forall in Hsup. destruct (Hsup X HX) as [HP _].
    rewrite project_note_placeholders. intros Hin. apply Hnot, HP, Hin.
  - intros st Hst. unfold state_supported in Hfsup.
    rewrite Forall_forall in Hfsup.
    destruct (Hfsup st Hst) as [[Hc _] [Hh _]].
    split; intros Hin; apply Hnot; [apply Hc | apply Hh]; exact Hin.
Qed.

Lemma rnn_stack_units a :
  Forall (fun c => num_units c = hidden_size a) (cells (rnn_stack a)).
Proof.
  unfold rnn_stack. cbn. apply Forall_replicate. reflexivity.
Qed.

(** X12. The projection is applied to operands of matching dimensions at
    every step and in both modes: the recurrent output is
    [batch_size x hidden_size], the weights [hidden_size x NB_NOTES], the
    bias [NB_NOTES], the projected output [batch_size x NB_NOTES]; and the
    input fed to the stack, fed back or not, has the shape of an input
    slot. *)
Theorem shapes_agree a g :
  valid_config a ->
  projection_free g ->
  ∃ m g' outs W b,
    Model_new NB_NOTES a g = (Ok m, g') ∧
    outputs m = Some outs ∧
    var_shape W = [hidden_size a; NB_NOTES] ∧
    var_shape b = [NB_NOTES] ∧
    ∀ t o, outs !! t = Some o ->
      ∃ X fed,
        unproject o = Some (X, W, b) ∧
        get_shape X = [batch_size a; hidden_size a] ∧
        get_shape o = [batch_size a; NB_NOTES] ∧
        fed_input o = Some fed ∧
        get_shape fed = [batch_size a; NB_NOTES].
Proof.
  intros (_ & Hn & _ & Hnl) Hfree.
  destruct (Model_new_decoded NB_NOTES a g Hnl Hfree ltac:(auto))
    as (raws & fs & Hdec & Hlen & Hrun).
  destruct (decoded_invariant a g raws fs
              (fun _ inp => get_shape inp = [batch_size a; NB_NOTES])
              (fun _ out => get_shape out = [batch_size a; hidden_size a])
              (fun _ prev _ =>
                 ∀ p, prev = Some p ->
                      get_shape p = [batch_size a; hidden_size a])
              Hnl Hdec) as [Hall _].
  - intros p k st Hk Hprev. specialize (Hprev p eq_refl).
    unfold next_input. destruct (test a).
    + cbn. rewrite Hprev. reflexivity.
    + destruct (lookup_lt_is_Some_2 (input_slots NB_NOTES a g) k) as [q Hq].
      { now rewrite input_slots_length. }
      rewrite Hq. cbn.
      apply fresh_placeholders_inv in Hq as [_ ->]. reflexivity.
  - intros k prev inp st out st' Hk Hlst _ Hin Hcall.
    destruct (MultiRNNCell_call_facts _ _ _ _ _ _ (rnn_stack_nonempty a Hnl)
                Hlst Hcall) as (_ & Hshape & _).
    pose proof (Hshape _ _ _ Hin (rnn_stack_units a)) as Hout.
    split; [exact Hout|]. intros p [= <-]. exact Hout.
  - discriminate.
  - intros p Hp. cbn. apply fresh_placeholders_inv in Hp as [_ ->].
    reflexivity.
  - exists (built_model NB_NOTES a g raws fs), (built_graph NB_NOTES a g raws),
      (project_note (projection_W NB_NOTES a g) (projection_b NB_NOTES a g)
         <$> raws),
      (projection_W NB_NOTES a g), (projection_b NB_NOTES a g).
    split; [exact Hrun|]. split; [reflexivity|]. split; [reflexivity|].
    split; [reflexivity|].
    intros t o Ho. apply project_note_lookup in Ho as (X & HX & ->).
    destruct (Hall t X HX) as (fed & Hfed & Hin & Hout).
    exists X, fed. split; [reflexivity|]. split; [exact Hout|].
    split; [cbn; rewrite Hout; reflexivity|].
    split; [exact Hfed | exact Hin].
Qed.

(** X13. The final state a construction exposes has one tuple per layer,
    and the hidden state of its top layer is the recurrent output of the
    last step, the operand of the last projected output. *)
Theorem final_state_follows_last_output a g :
  valid_config a ->
  projection_free g ->
  ∃ m g' outs final o X W b top,
    Model_new NB_NOTES a g = (Ok m, g') ∧
    outputs m = Some outs ∧ final_state m = Some final ∧
    Z.of_nat (length final) = num_layers a ∧
    last outs = Some o ∧ unproject o = Some (X, W, b) ∧
    last final = Some top ∧ st_h top = X.
Proof.
  intros (_ & Hn & _ & Hnl) Hfree.
  destruct (Model_new_decoded NB_NOTES a g Hnl Hfree ltac:(auto))
    as (raws & fs & Hdec & Hlen & Hrun).
  destruct (decoded_invariant a g raws fs
              (fun _ _ => True) (fun _ _ => True)
              (fun _ prev st =>
                 length st = length (cells (rnn_stack a)) ∧
                 ∀ p, prev = Some p ->
                      ∃ top, last st = Some top ∧ st_h top = p)
              Hnl Hdec) as [_ [Hfs Hlast]].
  - trivial.
  - intros k prev inp st out st' Hk Hlst _ _ Hcall.
    destruct (MultiRNNCell_call_facts _ _ _ _ _ _ (rnn_stack_nonempty a Hnl)
                Hlst Hcall) as (Hlen' & _ & _ & Htop).
    split; [trivial|]. split; [congruence|]. intros p [= <-]. exact Htop.
  - split; [apply zero_state_length | discriminate].
  - trivial.
  - destruct (last raws) as [X|] eqn:Elast.
    2: { apply last_None in Elast. subst raws. cbn in Hlen.
         unfold slots in Hlen. lia. }
    destruct (Hlast X eq_refl) as (top & Htop & Hh).
    exists (built_model NB_NOTES a g raws fs), (built_graph NB_NOTES a g raws),
      (project_note (projection_W NB_NOTES a g) (projection_b NB_NOTES a g)
         <$> raws), fs,
      (project_note (projection_W NB_NOTES a g) (projection_b NB_NOTES a g) X),
      X, (projection_W NB_NOTES a g), (projection_b NB_NOTES a g), top.
    split; [exact Hrun|]. split; [reflexivity|]. split; [reflexivity|].
    split; [rewrite Hfs; unfold rnn_stack; cbn; rewrite length_replicate; lia|].
    split; [now rewrite fmap_last, Elast|].
    split; [reflexivity|]. split; assumption.
Qed.

(** X14. The slots of a model are [2 * sample_length] distinct tensor
    objects in either mode: no two input slots, no two target slots and no
    input slot and target slot are the same placeholder, so no two of them
    share a key of a feed dictionary. *)
Theorem slots_are_distinct_placeholders a g :
  valid_config a ->
  projection_free g ->
  ∃ m g' ins tgs,
    Model_new NB_NOTES a g = (Ok m, g') ∧
    inputs m = Some ins ∧ targets m = Some tgs ∧
    NoDup (ins ++ tgs) ∧
    Z.of_nat (length (ins ++ tgs)) = 2 * sample_length a ∧
    (∀ p, p ∈ ins -> p ∉ tgs) ∧
    size (list_to_set (C := gset placeholder) (ins ++ tgs))
      = length (ins ++ tgs).
Proof.
  intros Hvalid Hfree.
  destruct (Model_new_run NB_NOTES a g Hvalid Hfree) as (raws & fs & Hrun & _).
  destruct Hvalid as (_ & Hn & _ & _).
  exists (built_model NB_NOTES a g raws fs), (built_graph NB_NOTES a g raws),
    (input_slots NB_NOTES a g), (target_slots NB_NOTES a g).
  split; [exact Hrun|]. split; [reflexivity|]. split; [reflexivity|].
  pose proof (slots_distinct NB_NOTES a g) as Hnd.
  split; [exact Hnd|].
  split.
  { rewrite length_app, input_slots_length, target_slots_length.
    unfold slots. lia. }
  split.
  { apply NoDup_app in Hnd as (_ & Hcross & _). exact Hcross. }
  apply size_list_to_set, Hnd.
Qed.

End GraphFacts.

(** ** The further properties on concrete inputs

    The scenarios' models of four steps in a fresh graph, with 88 notes,
    and the small configurations that lack a step or a layer. *)

Lemma second_model_in_graph_raises_scenario :
  (valid_config (scenario false)) ∧
  (valid_config (scenario true)) ∧
  (projection_free empty_graph) ∧
  ∃ m g1 g2,
    Model_new 88 (scenario false) empty_graph = (Ok m, g1) ∧
    Model_new 88 (scenario true) g1 = (Raise ValueError, g2).
Proof.
  split; [unfold valid_config; cbn; lia|].
  split; [unfold valid_config; cbn; lia|].
  split; [split; reflexivity|].
  apply (second_model_in_graph_raises 88 (scenario false) (scenario true) empty_graph).
  - unfold valid_config; cbn; lia.
  - unfold valid_config; cbn; lia.
  - split; reflexivity.
Defined.

Lemma constructor_needs_a_layer_scenario :
  (0 < batch_size (small_config 4 0 false)) ∧
  (0 < hidden_size (small_config 4 0 false)) ∧
  (projection_free empty_graph) ∧
  (num_layers (small_config 4 0 false) <= 0) ∧
  ∃ g', Model_new 88 (small_config 4 0 false) empty_graph = (Raise ValueError, g').
Proof.
  split; [cbn; lia|].
  split; [cbn; lia|].
  split; [split; reflexivity|].
  split; [cbn; lia|].
  apply (constructor_needs_a_layer 88 (small_config 4 0 false) empty_graph).
  - cbn; lia.
  - cbn; lia.
  - split; reflexivity.
  - cbn; lia.
Defined.

Lemma training_constructor_needs_a_step_scenario :
  (0 < batch_size (small_config 0 1 false)) ∧
  (0 < hidden_size (small_config 0 1 false)) ∧
  (0 < num_layers (small_config 0 1 false)) ∧
  (projection_free empty_graph) ∧
  (test (small_config 0 1 false) = false) ∧
  (sample_length (small_config 0 1 false) <= 0) ∧
  ∃ g', Model_new 88 (small_config 0 1 false) empty_graph = (Raise ValueError, g').
Proof.
  split; [cbn; lia|].
  split; [cbn; lia|].
  split; [cbn; lia|].
  split; [split; reflexivity|].
  split; [reflexivity|].
  split; [cbn; lia|].
  apply (training_constructor_needs_a_step 88 (small_config 0 1 false) empty_graph).
  - cbn; lia.
  - cbn; lia.
  - cbn; lia.
  - split; reflexivity.
  - reflexivity.
  - cbn; lia.
Defined.

Lemma generation_without_steps_scenario :
  (0 < batch_size (small_config 0 1 true)) ∧
  (0 < hidden_size (small_config 0 1 true)) ∧
  (0 < num_layers (small_config 0 1 true)) ∧
  (projection_free empty_graph) ∧
  (test (small_config 0 1 true) = true) ∧
  (sample_length (small_config 0 1 true) <= 0) ∧
  (is_Some (batch_inputs inputs_only_batch)) ∧
  ∃ m g',
    Model_new 88 (small_config 0 1 true) empty_graph = (Ok m, g') ∧
    inputs m = Some [] ∧ targets m = Some [] ∧ outputs m = Some [] ∧
    opt_op m = None ∧
    final_state m = Some (zero_state (rnn_stack (small_config 0 1 true)) (batch_size (small_config 0 1 true))) ∧
    step inputs_only_batch {| self := m; default_graph := g' |}
      = (Raise IndexError, {| self := m; default_graph := g' |}).
Proof.
  split; [cbn; lia|].
  split; [cbn; lia|].
  split; [cbn; lia|].
  split; [split; reflexivity|].
  split; [reflexivity|].
  split; [cbn; lia|].
  split; [exists [zeros_array]; reflexivity|].
  apply (generation_without_steps 88 (small_config 0 1 true) empty_graph inputs_only_batch).
  - cbn; lia.
  - cbn; lia.
  - cbn; lia.
  - split; reflexivity.
  - reflexivity.
  - cbn; lia.
  - exists [zeros_array]; reflexivity.
Defined.

Lemma step_training_without_targets_scenario :
  (valid_config (scenario false)) ∧
  (projection_free empty_graph) ∧
  (test (scenario false) = false) ∧
  (batch_inputs inputs_only_batch = Some (zeros_array :: [])) ∧
  (batch_targets inputs_only_batch = None) ∧
  ∃ m g',
    Model_new 88 (scenario false) empty_graph = (Ok m, g') ∧
    step inputs_only_batch {| self := m; default_graph := g' |}
      = (Raise AttributeError, {| self := m; default_graph := g' |}).
Proof.
  split; [unfold valid_config; cbn; lia|].
  split; [split; reflexivity|].
  split; [reflexivity|].
  split; [reflexivity|].
  split; [reflexivity|].
  apply (step_training_without_targets 88 (scenario false) empty_graph inputs_only_batch zeros_array []).
  - unfold valid_config; cbn; lia.
  - split; reflexivity.
  - reflexivity.
  - reflexivity.
  - reflexivity.
Defined.

Lemma step_without_input_arrays_scenario :
  (valid_config (scenario true)) ∧
  (projection_free empty_graph) ∧
  (batch_inputs empty_batch = None ∨ batch_inputs empty_batch = Some []) ∧
  ∃ m g',
    Model_new 88 (scenario true) empty_graph = (Ok m, g') ∧
    step empty_batch {| self := m; default_graph := g' |}
      = (Raise match batch_inputs empty_batch with
               | None => AttributeError
               | Some _ => IndexError
               end,
         {| self := m; default_graph := g' |}).
Proof.
  split; [unfold valid_config; cbn; lia|].
  split; [split; reflexivity|].
  split; [right; reflexivity|].
  apply (step_without_input_arrays 88 (scenario true) empty_graph empty_batch).
  - unfold valid_config; cbn; lia.
  - split; reflexivity.
  - right; reflexivity.
Defined.

Lemma step_training_short_batch_scenario :
  (valid_config (scenario false)) ∧
  (projection_free empty_graph) ∧
  (test (scenario false) = false) ∧
  (batch_inputs short_batch = Some (replicate 3 zeros_array)) ∧
  (batch_targets short_batch = Some (replicate 4 zeros_array)) ∧
  (Z.of_nat (length (replicate 3 zeros_array)) < sample_length (scenario false)
    ∨ Z.of_nat (length (replicate 4 zeros_array)) < sample_length (scenario false)) ∧
  ∃ m g',
    Model_new 88 (scenario false) empty_graph = (Ok m, g') ∧
    step short_batch {| self := m; default_graph := g' |}
      = (Raise IndexError, {| self := m; default_graph := g' |}).
Proof.
  split; [unfold valid_config; cbn; lia|].
  split; [split; reflexivity|].
  split; [reflexivity|].
  split; [reflexivity|].
  split; [reflexivity|].
  split; [left; cbn; lia|].
  apply (step_training_short_batch 88 (scenario false) empty_graph short_batch (replicate 3 zeros_array) (replicate 4 zeros_array)).
  - unfold valid_config; cbn; lia.
  - split; reflexivity.
  - reflexivity.
  - reflexivity.
  - reflexivity.
  - left; cbn; lia.
Defined.

Lemma step_training_reads_prefix_scenario :
  (valid_config (scenario false)) ∧
  (projection_free empty_graph) ∧
  (test (scenario false) = false) ∧
  (batch_inputs long_batch = Some (replicate 5 zeros_array)) ∧
  (batch_targets long_batch = Some (replicate 6 zeros_array)) ∧
  (sample_length (scenario false) <= Z.of_nat (length (replicate 5 zeros_array))) ∧
  (sample_length (scenario false) <= Z.of_nat (length (replicate 6 zeros_array))) ∧
  ∃ m g' ops (fd : gmap placeholder ndarray),
    Model_new 88 (scenario false) empty_graph = (Ok m, g') ∧
    step long_batch {| self := m; default_graph := g' |}
      = (Ok (ops, fd), {| self := m; default_graph := g' |}) ∧
    step (truncate_batch (Z.to_nat (sample_length (scenario false))) long_batch)
         {| self := m; default_graph := g' |}
      = (Ok (ops, fd), {| self := m; default_graph := g' |}) ∧
    Z.of_nat (size fd) = 2 * sample_length (scenario false).
Proof.
  split; [unfold valid_config; cbn; lia|].
  split; [split; reflexivity|].
  split; [reflexivity|].
  split; [reflexivity|].
  split; [reflexivity|].
  split; [cbn; lia|].
  split; [cbn; lia|].
  apply (step_training_reads_prefix 88 (scenario false) empty_graph long_batch (replicate 5 zeros_array) (replicate 6 zeros_array)).
  - unfold valid_config; cbn; lia.
  - split; reflexivity.
  - reflexivity.
  - reflexivity.
  - reflexivity.
  - cbn; lia.
  - cbn; lia.
Defined.

Lemma output_dependencies_scenario :
  (valid_config (scenario false)) ∧
  (projection_free empty_graph) ∧
  ∃ m g' ins outs,
    Model_new 88 (scenario false) empty_graph = (Ok m, g') ∧
    inputs m = Some ins ∧ outputs m = Some outs ∧
    ∀ t o, outs !! t = Some o ->
      tensor_placeholders o
        = list_to_set (take (if test (scenario false) then 1%nat else S t) ins).
Proof.
  split; [unfold valid_config; cbn; lia|].
  split; [split; reflexivity|].
  apply (output_dependencies 88 (scenario false) empty_graph).
  - unfold valid_config; cbn; lia.
  - split; reflexivity.
Defined.

Lemma outputs_ignore_target_slots_scenario :
  (valid_config (scenario true)) ∧
  (projection_free empty_graph) ∧
  ∃ m g' tgs outs final,
    Model_new 88 (scenario true) empty_graph = (Ok m, g') ∧
    targets m = Some tgs ∧ outputs m = Some outs ∧
    final_state m = Some final ∧
    ∀ q, q ∈ tgs ->
      (∀ o, o ∈ outs -> q ∉ tensor_placeholders o) ∧
      (∀ st, st ∈ final ->
         (q ∉ tensor_placeholders (st_c st)) ∧
         (q ∉ tensor_placeholders (st_h st))).
Proof.
  split; [unfold valid_config; cbn; lia|].
  split; [split; reflexivity|].
  apply (outputs_ignore_target_slots 88 (scenario true) empty_graph).
  - unfold valid_config; cbn; lia.
  - split; reflexivity.
Defined.

Lemma shapes_agree_scenario :
  (valid_config (scenario true)) ∧
  (projection_free empty_graph) ∧
  ∃ m g' outs W b,
    Model_new 88 (scenario true) empty_graph = (Ok m, g') ∧
    outputs m = Some outs ∧
    var_shape W = [hidden_size (scenario true); 88] ∧
    var_shape b = [88] ∧
    ∀ t o, outs !! t = Some o ->
      ∃ X fed,
        unproject o = Some (X, W, b) ∧
        get_shape X = [batch_size (scenario true); hidden_size (scenario true)] ∧
        get_shape o = [batch_size (scenario true); 88] ∧
        fed_input o = Some fed ∧
        get_shape fed = [batch_size (scenario true); 88].
Proof.
  split; [unfold valid_config; cbn; lia|].
  split; [split; reflexivity|].
  apply (shapes_agree 88 (scenario true) empty_graph).
  - unfold valid_config; cbn; lia.
  - split; reflexivity.
Defined.

Lemma final_state_follows_last_output_scenario :
  (valid_config (scenario false)) ∧
  (projection_free empty_graph) ∧
  ∃ m g' outs final o X W b top,
    Model_new 88 (scenario false) empty_graph = (Ok m, g') ∧
    outputs m = Some outs ∧ final_state m = Some final ∧
    Z.of_nat (length final) = num_layers (scenario false) ∧
    last outs = Some o ∧ unproject o = Some (X, W, b) ∧
    last final = Some top ∧ st_h top = X.
Proof.
  split; [unfold valid_config; cbn; lia|].
  split; [split; reflexivity|].
  apply (final_state_follows_last_output 88 (scenario false) empty_graph).
  - unfold valid_config; cbn; lia.
  - split; reflexivity.
Defined.

Lemma slots_are_distinct_placeholders_scenario :
  (valid_config (scenario false)) ∧
  (projection_free empty_graph) ∧
  ∃ m g' ins tgs,
    Model_new 88 (scenario false) empty_graph = (Ok m, g') ∧
    inputs m = Some ins ∧ targets m = Some tgs ∧
    NoDup (ins ++ tgs) ∧
    Z.of_nat (length (ins ++ tgs)) = 2 * sample_length (scenario false) ∧
    (∀ p, p ∈ ins -> p ∉ tgs) ∧
    size (list_to_set (C := gset placeholder) (ins ++ tgs))
      = length (ins ++ tgs).
Proof.
  split; [unfold valid_config; cbn; lia|].
  split; [split; reflexivity|].
  apply (slots_are_distinct_placeholders 88 (scenario false) empty_graph).
  - unfold valid_config; cbn; lia.
  - split; reflexivity.
Defined.

Lemma refused_construction_occupies_graph_scenario :
  (0 < batch_size (small_config 4 0 false)) ∧
  (0 < hidden_size (small_config 4 0 false)) ∧
  (projection_free empty_graph) ∧
  (num_layers (small_config 4 0 false) <= 0
   ∨ (test (small_config 4 0 false) = false
      ∧ sample_length (small_config 4 0 false) <= 0)) ∧
  (valid_config (scenario false)) ∧
  ∃ g1 g2,
    Model_new 88 (small_config 4 0 false) empty_graph
      = (Raise ValueError, g1) ∧
    is_Some (variables g1 !! "note_projection/weights") ∧
    is_Some (variables g1 !! "note_projection/bias") ∧
    Model_new 88 (scenario false) g1 = (Raise ValueError, g2).
Proof.
  split; [cbn; lia|].
  split; [cbn; lia|].
  split; [split; reflexivity|].
  split; [left; cbn; lia|].
  split; [unfold valid_config; cbn; lia|].
  apply (refused_construction_occupies_graph 88 (small_config 4 0 false)
           (scenario false) empty_graph).
  - cbn; lia.
  - cbn; lia.
  - split; reflexivity.
  - left; cbn; lia.
  - unfold valid_config; cbn; lia.
Defined.
